(** * NioxPlugin: the WinRT Bluetooth LE scanning wrapper

    A shallow embedding of [winrt_ble_wrapper.cpp] / [winrt_ble_wrapper.h]:
    the six globals, the heap of [new char[]] strings the wrapper hands out,
    the calls it makes into the platform, and the advertisement handler. *)

From Stdlib Require Import Ascii String.
From stdpp Require Import base numbers list gmap strings.

Local Open Scope Z_scope.

(** ** C characters and NUL-terminated character arrays *)

Definition NUL : ascii := "000"%char.

(** Conversion to [char] keeps the low eight bits. *)
Definition char_of_Z (z : Z) : ascii := ascii_of_N (Z.to_N (z mod 256)).
Definition Z_of_char (c : ascii) : Z := Z.of_N (N_of_ascii c).

(** A character array as it lies in memory; a C string is read from it up to
    the first NUL. *)
Definition cbuf := list ascii.

Fixpoint cstr (buf : cbuf) : list ascii :=
  match buf with
  | [] => []
  | c :: rest => if Ascii.eqb c NUL then [] else c :: cstr rest
  end.

Definition strlen (buf : cbuf) : nat := length (cstr buf).

(** [strncmp]: at most [n] characters, compared as unsigned char, stopping
    after a NUL. Past the end of the array reads as NUL; every array here is
    NUL-terminated, so that position is never reached. *)
Fixpoint strncmp (s1 s2 : cbuf) (n : nat) : Z :=
  match n with
  | O => 0
  | S n' =>
    let c1 := hd NUL s1 in
    let c2 := hd NUL s2 in
    if negb (Ascii.eqb c1 c2) then Z_of_char c1 - Z_of_char c2
    else if Ascii.eqb c1 NUL then 0
    else strncmp (tl s1) (tl s2) n'
  end.

(** [static const char* NIOX_PREFIX = "NIOX PRO";] *)
Definition NIOX_PREFIX : cbuf := list_ascii_of_string "NIOX PRO" ++ [NUL].

(** ** Wide strings and their conversion to UTF-8 *)

(** An [hstring] is a counted sequence of 16-bit code units. *)
Definition hstring := list Z.

(** [hstr.c_str()] read back as a NUL-terminated wide string, which is what
    [std::wstring wstr(hstr.c_str())] does: it ends at the first zero unit. *)
Fixpoint wcs (h : hstring) : list Z :=
  match h with
  | [] => []
  | u :: rest => if u =? 0 then [] else u :: wcs rest
  end.

Definition is_high_surrogate (u : Z) : bool := (0xD800 <=? u) && (u <=? 0xDBFF).
Definition is_low_surrogate (u : Z) : bool := (0xDC00 <=? u) && (u <=? 0xDFFF).

Definition utf8_encode (cp : Z) : list ascii :=
  if cp <? 0x80 then [char_of_Z cp]
  else if cp <? 0x800 then
    [char_of_Z (Z.lor 0xC0 (Z.shiftr cp 6));
     char_of_Z (Z.lor 0x80 (Z.land cp 0x3F))]
  else if cp <? 0x10000 then
    [char_of_Z (Z.lor 0xE0 (Z.shiftr cp 12));
     char_of_Z (Z.lor 0x80 (Z.land (Z.shiftr cp 6) 0x3F));
     char_of_Z (Z.lor 0x80 (Z.land cp 0x3F))]
  else
    [char_of_Z (Z.lor 0xF0 (Z.shiftr cp 18));
     char_of_Z (Z.lor 0x80 (Z.land (Z.shiftr cp 12) 0x3F));
     char_of_Z (Z.lor 0x80 (Z.land (Z.shiftr cp 6) 0x3F));
     char_of_Z (Z.lor 0x80 (Z.land cp 0x3F))].

(** The platform's [WideCharToMultiByte(CP_UTF8, 0, ...)]: UTF-16 to UTF-8,
    a surrogate pair becoming one four-byte sequence and an unpaired
    surrogate the replacement character U+FFFD. *)
Fixpoint WideCharToMultiByte (w : list Z) : list ascii :=
  match w with
  | [] => []
  | u :: rest =>
    if is_high_surrogate u then
      match rest with
      | lo :: rest' =>
        if is_low_surrogate lo
        then utf8_encode (0x10000 + (u - 0xD800) * 0x400 + (lo - 0xDC00))
             ++ WideCharToMultiByte rest'
        else utf8_encode 0xFFFD ++ WideCharToMultiByte rest
      | [] => utf8_encode 0xFFFD
      end
    else if is_low_surrogate u then utf8_encode 0xFFFD ++ WideCharToMultiByte rest
    else utf8_encode u ++ WideCharToMultiByte rest
  end.

(** The array [wstring_to_cstring] fills: [size_needed] converted bytes and
    the terminator written at [str[size_needed]]. *)
Definition wstring_to_cstring_buf (wstr : list Z) : cbuf :=
  WideCharToMultiByte wstr ++ [NUL].

Definition hstring_to_cstring_buf (hstr : hstring) : cbuf :=
  wstring_to_cstring_buf (wcs hstr).

(** ** [sprintf_s] with the address format *)

Definition hex_digit_upper (d : Z) : ascii :=
  if d <? 10 then char_of_Z (48 + d) else char_of_Z (55 + d).

(** The hexadecimal digits of [v], most significant first. *)
Fixpoint hex_digits (fuel : nat) (v : Z) (acc : list ascii) : list ascii :=
  match fuel with
  | O => acc
  | S fuel' =>
    let acc' := hex_digit_upper (v mod 16) :: acc in
    if v / 16 =? 0 then acc' else hex_digits fuel' (v / 16) acc'
  end.

(** One ["%02X"] conversion: the argument read as [unsigned int], upper-case
    digits, zero-padded to a width of two. *)
Definition fmt_02X (v : Z) : list ascii :=
  let ds := hex_digits 8 (v mod 2 ^ 32) [] in
  replicate (2 - length ds)%nat "0"%char ++ ds.

Definition colon : ascii := ":"%char.

(** The text produced for ["%02X:%02X:%02X:%02X:%02X:%02X"]. *)
Definition sprintf_address (a5 a4 a3 a2 a1 a0 : Z) : list ascii :=
  fmt_02X a5 ++ [colon] ++ fmt_02X a4 ++ [colon] ++ fmt_02X a3 ++ [colon] ++
  fmt_02X a2 ++ [colon] ++ fmt_02X a1 ++ [colon] ++ fmt_02X a0.

(** The contents of [addr_str] after the [sprintf_s] call of
    [format_bluetooth_address]; [None] when the text and its terminator
    exceed the 18 characters of the array, where [sprintf_s] aborts. *)
Definition format_bluetooth_address_buf (address : Z) : option cbuf :=
  let text :=
    sprintf_address
      (Z.land (Z.shiftr address 40) 0xFF)
      (Z.land (Z.shiftr address 32) 0xFF)
      (Z.land (Z.shiftr address 24) 0xFF)
      (Z.land (Z.shiftr address 16) 0xFF)
      (Z.land (Z.shiftr address 8) 0xFF)
      (Z.land address 0xFF) in
  if (length text <? 18)%nat then Some (text ++ [NUL]) else None.

(** ** Program state *)

(** Addresses of [new char[]] arrays; a [char*] is such an address, or
    [None] for the null pointer. *)
Definition loc := positive.
Definition ptr := option loc.

(** [typedef struct { char* name; char* address; int rssi; int hasRssi; } BLEDevice;] *)
Record BLEDevice := {
  name : ptr;
  address : ptr;
  rssi : Z;
  hasRssi : Z
}.

(** A [DeviceFoundCallback] is a code address, [userData] an opaque one. *)
Definition fnptr := positive.
Definition DeviceFoundCallback := option fnptr.
Definition voidptr := option Z.

(** The object a [std::unique_ptr<BluetoothLEAdvertisementWatcher>] owns. *)
Definition watcher := positive.

(** The file's [static] variables. *)
Record Globals := {
  g_initialized : bool;
  g_watcher : option watcher;
  g_discovered_devices : list BLEDevice;
  g_callback : DeviceFoundCallback;
  g_user_data : voidptr;
  g_niox_only : bool
}.

Definition set_initialized (b : bool) (g : Globals) : Globals :=
  {| g_initialized := b; g_watcher := g_watcher g;
     g_discovered_devices := g_discovered_devices g; g_callback := g_callback g;
     g_user_data := g_user_data g; g_niox_only := g_niox_only g |}.
Definition set_watcher (w : option watcher) (g : Globals) : Globals :=
  {| g_initialized := g_initialized g; g_watcher := w;
     g_discovered_devices := g_discovered_devices g; g_callback := g_callback g;
     g_user_data := g_user_data g; g_niox_only := g_niox_only g |}.
Definition set_discovered_devices (ds : list BLEDevice) (g : Globals) : Globals :=
  {| g_initialized := g_initialized g; g_watcher := g_watcher g;
     g_discovered_devices := ds; g_callback := g_callback g;
     g_user_data := g_user_data g; g_niox_only := g_niox_only g |}.
Definition set_callback (cb : DeviceFoundCallback) (g : Globals) : Globals :=
  {| g_initialized := g_initialized g; g_watcher := g_watcher g;
     g_discovered_devices := g_discovered_devices g; g_callback := cb;
     g_user_data := g_user_data g; g_niox_only := g_niox_only g |}.
Definition set_user_data (ud : voidptr) (g : Globals) : Globals :=
  {| g_initialized := g_initialized g; g_watcher := g_watcher g;
     g_discovered_devices := g_discovered_devices g; g_callback := g_callback g;
     g_user_data := ud; g_niox_only := g_niox_only g |}.
Definition set_niox_only (b : bool) (g : Globals) : Globals :=
  {| g_initialized := g_initialized g; g_watcher := g_watcher g;
     g_discovered_devices := g_discovered_devices g; g_callback := g_callback g;
     g_user_data := g_user_data g; g_niox_only := b |}.

Inductive ScanningMode := Passive | Active.

(** What the wrapper does to the world outside its own variables, in the
    order it does it. *)
Inductive Effect :=
  | InitApartment
  | UninitApartment
  | WatcherCreate (w : watcher)
  | WatcherScanningMode (w : watcher) (m : ScanningMode)
  | WatcherReceived (w : watcher)
  | WatcherStart (w : watcher)
  | WatcherStop (w : watcher)
  | WatcherRelease (w : watcher)
  | ThreadDetach (durationMs : Z)
  | Callback (cb : fnptr) (device : BLEDevice) (userData : voidptr).

Record World := {
  globals : Globals;
  heap : gmap loc cbuf;
  next_watcher : watcher;
  effects : list Effect
}.

Definition initial_globals : Globals :=
  {| g_initialized := false; g_watcher := None; g_discovered_devices := [];
     g_callback := None; g_user_data := None; g_niox_only := false |}.

Definition initial_world : World :=
  {| globals := initial_globals; heap := ∅; next_watcher := 1%positive;
     effects := [] |}.

(** ** How the platform answers *)

(** The statements of the [try] block of [winrt_start_scan] that call into
    the platform, each of which may throw. *)
Inductive ScanStep := AtMakeUnique | AtScanningMode | AtReceived | AtStart | AtThread.

Inductive RadioState := RadioUnknown | RadioOn | RadioOff | RadioDisabled.

Inductive AdapterAnswer :=
  | AdapterThrows
  | NoAdapter
  | NoRadio
  | RadioIs (s : RadioState).

(** The platform's behaviour during one call of the wrapper. *)
Record Platform := {
  init_apartment_throws : bool;
  scan_throws : option ScanStep;
  adapter : AdapterAnswer
}.

Definition throws_at (pf : Platform) (s : ScanStep) : bool :=
  match scan_throws pf, s with
  | Some AtMakeUnique, AtMakeUnique
  | Some AtScanningMode, AtScanningMode
  | Some AtReceived, AtReceived
  | Some AtStart, AtStart
  | Some AtThread, AtThread => true
  | _, _ => false
  end.

(** ** Computations over the world

    [None] is undefined behaviour: reading or deleting an array that is not
    live, or [sprintf_s] overrunning its buffer. C++ exceptions are not
    errors of this monad; they are decided by the [Platform] and handled
    where the source has its [catch]. *)

Definition M (A : Type) : Type := World → option (A * World).

Definition ret {A} (a : A) : M A := λ s, Some (a, s).
Definition bind {A B} (c : M A) (k : A → M B) : M B :=
  λ s, match c s with Some (a, s') => k a s' | None => None end.
Definition undefined {A} : M A := λ _, None.

Declare Scope m_scope.
Delimit Scope m_scope with M.
Notation "x <- c ;; k" := (bind c (λ x, k))
  (at level 20, c at level 99, k at level 200, only parsing) : m_scope.
Notation "'exec' c ;; k" := (bind c (λ _, k))
  (at level 20, c at level 99, k at level 200, only parsing) : m_scope.
Local Open Scope m_scope.

Definition get_globals : M Globals := λ s, Some (globals s, s).
Definition update_globals (f : Globals → Globals) : M unit :=
  λ s, Some (tt, {| globals := f (globals s); heap := heap s;
                    next_watcher := next_watcher s; effects := effects s |}).
Definition emit (e : Effect) : M unit :=
  λ s, Some (tt, {| globals := globals s; heap := heap s;
                    next_watcher := next_watcher s; effects := effects s ++ [e] |}).

(** [new char[n]] filled with [buf]: an address that is not live. *)
Definition new_array (buf : cbuf) : M loc :=
  λ s, let l := fresh (dom (heap s)) in
       Some (l, {| globals := globals s; heap := <[l := buf]> (heap s);
                   next_watcher := next_watcher s; effects := effects s |}).

(** [delete[] p] for a non-null [p]. *)
Definition delete_array (l : loc) : M unit :=
  λ s, match heap s !! l with
       | Some _ => Some (tt, {| globals := globals s; heap := delete l (heap s);
                                next_watcher := next_watcher s; effects := effects s |})
       | None => None
       end.

Definition read_array (l : loc) : M cbuf :=
  λ s, match heap s !! l with Some buf => Some (buf, s) | None => None end.

(** [std::make_unique<BluetoothLEAdvertisementWatcher>()] *)
Definition make_watcher : M watcher :=
  λ s, let w := next_watcher s in
       Some (w, {| globals := globals s; heap := heap s;
                   next_watcher := Pos.succ w; effects := effects s ++ [WatcherCreate w] |}).

(** ** The helpers of the wrapper *)

(** [char* hstring_to_cstring(const hstring&)]: a fresh array holding the
    UTF-8 text of the wide string. *)
Definition wstring_to_cstring (wstr : list Z) : M loc :=
  new_array (wstring_to_cstring_buf wstr).

Definition hstring_to_cstring (hstr : hstring) : M loc :=
  wstring_to_cstring (wcs hstr).

(** [char* format_bluetooth_address(uint64_t address)] *)
Definition format_bluetooth_address (address : Z) : M loc :=
  match format_bluetooth_address_buf address with
  | Some buf => new_array buf
  | None => undefined
  end.

(** [bool is_niox_device(const char* name)] *)
Definition is_niox_device (name : ptr) : M bool :=
  match name with
  | None => ret false
  | Some l =>
    buf <- read_array l ;;
    let prefix_len := strlen NIOX_PREFIX in
    ret (strncmp buf NIOX_PREFIX prefix_len =? 0)
  end.

(** ** The exported functions *)

(** [int winrt_initialize()] *)
Definition winrt_initialize (pf : Platform) : M Z :=
  g <- get_globals ;;
  if g_initialized g then ret 0
  else
    exec emit InitApartment ;;
    if init_apartment_throws pf then ret (-1)
    else
      exec update_globals (set_initialized true) ;;
      ret 0.

(** [g_watcher->Stop()] inside [try { } catch (...) {}], then
    [g_watcher.reset()]: whether [Stop] throws or not, the pointer is reset. *)
Definition stop_and_reset (w : watcher) : M unit :=
  exec emit (WatcherStop w) ;;
  exec emit (WatcherRelease w) ;;
  update_globals (set_watcher None).

(** [void winrt_stop_scan()] *)
Definition winrt_stop_scan : M unit :=
  g <- get_globals ;;
  match g_watcher g with
  | Some w => stop_and_reset w
  | None => ret tt
  end.

(** [if (p) delete[] p;] *)
Definition delete_if (p : ptr) : M unit :=
  match p with
  | Some l => delete_array l
  | None => ret tt
  end.

(** The loop of [winrt_cleanup] over [g_discovered_devices]. *)
Fixpoint free_devices (ds : list BLEDevice) : M unit :=
  match ds with
  | [] => ret tt
  | device :: rest =>
    exec delete_if (name device) ;;
    exec delete_if (address device) ;;
    free_devices rest
  end.

(** [void winrt_cleanup()] *)
Definition winrt_cleanup : M unit :=
  g <- get_globals ;;
  exec (match g_watcher g with
        | Some w => stop_and_reset w
        | None => ret tt
        end) ;;
  exec free_devices (g_discovered_devices g) ;;
  exec update_globals (set_discovered_devices []) ;;
  exec update_globals (set_callback None) ;;
  exec update_globals (set_user_data None) ;;
  exec update_globals (set_initialized false) ;;
  emit UninitApartment.

(** [int winrt_check_bluetooth_state()]: 0 enabled, 1 disabled,
    2 unsupported, 3 unknown. *)
Definition winrt_check_bluetooth_state (pf : Platform) : M Z :=
  g <- get_globals ;;
  r <- (if g_initialized g then ret 0 else winrt_initialize pf) ;;
  if negb (r =? 0) then ret 3
  else
    match adapter pf with
    | AdapterThrows => ret 3
    | NoAdapter => ret 2
    | NoRadio => ret 2
    | RadioIs RadioOn => ret 0
    | RadioIs RadioOff => ret 1
    | RadioIs RadioDisabled => ret 1
    | RadioIs RadioUnknown => ret 3
    end.

(** [void winrt_free_string(char* str)] *)
Definition winrt_free_string (str : ptr) : M unit := delete_if str.

(** The [catch (...)] of [winrt_start_scan]: [g_watcher.reset(); return -1;] *)
Definition scan_catch : M Z :=
  g <- get_globals ;;
  exec (match g_watcher g with
        | Some w =>
          exec emit (WatcherRelease w) ;;
          update_globals (set_watcher None)
        | None => ret tt
        end) ;;
  ret (-1).

(** The four assignments that open the [try] block. *)
Definition scan_reset (nioxOnly : Z) (callback : DeviceFoundCallback)
    (userData : voidptr) : M unit :=
  exec update_globals (set_callback callback) ;;
  exec update_globals (set_user_data userData) ;;
  exec update_globals (set_niox_only (negb (nioxOnly =? 0))) ;;
  update_globals (set_discovered_devices []).

(** The rest of the [try] block: create, configure and start the watcher,
    then detach the timer thread. A statement the platform makes throw
    transfers to [scan_catch]. *)
Definition scan_launch (pf : Platform) (durationMs : Z) : M Z :=
  if throws_at pf AtMakeUnique then scan_catch
  else
    w <- make_watcher ;;
    exec update_globals (set_watcher (Some w)) ;;
    if throws_at pf AtScanningMode then scan_catch
    else
      exec emit (WatcherScanningMode w Active) ;;
      if throws_at pf AtReceived then scan_catch
      else
        exec emit (WatcherReceived w) ;;
        if throws_at pf AtStart then scan_catch
        else
          exec emit (WatcherStart w) ;;
          if throws_at pf AtThread then scan_catch
          else
            exec emit (ThreadDetach durationMs) ;;
            ret 0.

(** [int winrt_start_scan(int durationMs, int nioxOnly,
                          DeviceFoundCallback callback, void* userData)] *)
Definition winrt_start_scan (pf : Platform) (durationMs nioxOnly : Z)
    (callback : DeviceFoundCallback) (userData : voidptr) : M Z :=
  g <- get_globals ;;
  r <- (if g_initialized g then ret 0 else winrt_initialize pf) ;;
  if negb (r =? 0) then ret (-1)
  else
    g <- get_globals ;;
    match g_watcher g with
    | Some _ => ret (-1)
    | None =>
      exec scan_reset nioxOnly callback userData ;;
      scan_launch pf durationMs
    end.

(** ** The advertisement handler *)

(** What a [BluetoothLEAdvertisement] carries. *)
Record BluetoothLEAdvertisement := {
  LocalName : hstring;
  Flags : option Z;
  ServiceUuids : list Z;
  ManufacturerData : list (Z * list Z);
  DataSections : list (Z * list Z)
}.

(** [BluetoothLEAdvertisementReceivedEventArgs] *)
Record ReceivedEventArgs := {
  BluetoothAddress : Z;
  RawSignalStrengthInDBm : Z;
  Advertisement : BluetoothLEAdvertisement
}.

(** [g_discovered_devices.push_back(device)] *)
Definition push_back (device : BLEDevice) (g : Globals) : Globals :=
  set_discovered_devices (g_discovered_devices g ++ [device]) g.

(** The lambda registered with [g_watcher->Received]. Allocation and the
    getters of [args] do not throw here, so its [catch (...)] has nothing to
    catch. *)
Definition on_received (args : ReceivedEventArgs) : M unit :=
  let address := BluetoothAddress args in
  let rssi := RawSignalStrengthInDBm args in
  let advertisement := Advertisement args in
  let localName := LocalName advertisement in
  name <- (if bool_decide (localName = []) then ret None
           else l <- hstring_to_cstring localName ;; ret (Some l)) ;;
  g <- get_globals ;;
  niox <- (if g_niox_only g then is_niox_device name else ret true) ;;
  let should_report := negb (g_niox_only g && negb niox) in
  if should_report then
    a <- format_bluetooth_address address ;;
    let device := {| name := name; address := Some a; rssi := rssi; hasRssi := 1 |} in
    exec update_globals (push_back device) ;;
    g <- get_globals ;;
    match g_callback g with
    | Some cb => emit (Callback cb device (g_user_data g))
    | None => ret tt
    end
  else
    delete_if name.

(** The platform raises [Received] on the watcher it was registered with;
    without a watcher there is no handler to run. *)
Definition deliver (args : ReceivedEventArgs) : M unit :=
  g <- get_globals ;;
  match g_watcher g with
  | Some _ => on_received args
  | None => ret tt
  end.

(** ** The wrapper as a transition system *)

(** What can happen to the library: a call of an exported function, with
    the platform's behaviour during it, or an advertisement arriving. The
    detached timer thread of a scan acts by a [StopScanCall]. *)
Inductive Call :=
  | InitializeCall (pf : Platform)
  | CleanupCall
  | CheckBluetoothStateCall (pf : Platform)
  | StartScanCall (pf : Platform) (durationMs nioxOnly : Z)
      (callback : DeviceFoundCallback) (userData : voidptr)
  | StopScanCall
  | FreeStringCall (str : ptr)
  | ReceivedEvent (args : ReceivedEventArgs).

Definition step (c : Call) : M unit :=
  match c with
  | InitializeCall pf => exec winrt_initialize pf ;; ret tt
  | CleanupCall => winrt_cleanup
  | CheckBluetoothStateCall pf => exec winrt_check_bluetooth_state pf ;; ret tt
  | StartScanCall pf durationMs nioxOnly callback userData =>
    exec winrt_start_scan pf durationMs nioxOnly callback userData ;; ret tt
  | StopScanCall => winrt_stop_scan
  | FreeStringCall str => winrt_free_string str
  | ReceivedEvent args => deliver args
  end.

Fixpoint run (cs : list Call) : M unit :=
  match cs with
  | [] => ret tt
  | c :: rest => exec step c ;; run rest
  end.

(** ** Vocabulary of the properties *)

(** The text of [NIOX_PREFIX], eight characters. *)
Definition niox_text : list ascii := list_ascii_of_string "NIOX PRO".

(** The local name converted to UTF-8, read as the C string the wrapper
    builds from it. *)
Definition utf8_name (localName : hstring) : list ascii :=
  cstr (hstring_to_cstring_buf localName).

(** The handler reported [device] between [s] and [s'] to [callback]: the
    device is appended to the list of discovered devices, and [callback],
    unless it is null, is called with it and [userData]. *)
Definition reported_to (callback : DeviceFoundCallback) (userData : voidptr)
    (s s' : World) (device : BLEDevice) : Prop :=
  g_discovered_devices (globals s') = g_discovered_devices (globals s) ++ [device]
  ∧ effects s' =
      effects s ++ match callback with
                   | Some cb => [Callback cb device userData]
                   | None => []
                   end.

(** The same, to the callback registered in [s]. *)
Definition reported (s s' : World) (device : BLEDevice) : Prop :=
  reported_to (g_callback (globals s)) (g_user_data (globals s)) s s' device.


(** Reading an address text back: two upper-case hexadecimal digits per
    byte, colons between the six bytes, the most significant byte first. *)
Definition hex_digit_value (c : ascii) : option Z :=
  let n := Z_of_char c in
  if (48 <=? n) && (n <=? 57) then Some (n - 48)
  else if (65 <=? n) && (n <=? 70) then Some (n - 55)
  else None.

Definition parse_hex_pair (hi lo : ascii) : option Z :=
  match hex_digit_value hi, hex_digit_value lo with
  | Some h, Some l => Some (16 * h + l)
  | _, _ => None
  end.

(** One byte, then either the end of the text or a colon and [more] bytes. *)
Fixpoint parse_address_from (more : nat) (acc : Z) (text : list ascii) : option Z :=
  match text with
  | hi :: lo :: rest =>
    match parse_hex_pair hi lo with
    | Some b =>
      match more, rest with
      | O, [] => Some (acc * 256 + b)
      | S more', sep :: rest' =>
        if Ascii.eqb sep colon then parse_address_from more' (acc * 256 + b) rest'
        else None
      | _, _ => None
      end
    | None => None
    end
  | _ => None
  end.

Definition parse_address (text : list ascii) : option Z :=
  parse_address_from 5 0 text.

(** ["%02X"] of [b] is two digits that read back as [b]. *)
Definition pair_reads_back (b : Z) : bool :=
  match fmt_02X b with
  | [hi; lo] =>
    match parse_hex_pair hi lo with
    | Some v => v =? b
    | None => false
    end
  | _ => false
  end.

(** The arrays the list of discovered devices points to. *)
Definition device_ptrs (device : BLEDevice) : list loc :=
  option_list (name device) ++ option_list (address device).

Definition owned (ds : list BLEDevice) : list loc :=
  flat_map device_ptrs ds.

(** Every array the list points to is live, and none is pointed to twice. *)
Definition heap_owns (s : World) : Prop :=
  NoDup (owned (g_discovered_devices (globals s)))
  ∧ ∀ l, l ∈ owned (g_discovered_devices (globals s)) → is_Some (heap s !! l).

(** A call that respects the library's ownership of its arrays:
    [winrt_free_string] is only used on a live array that the list of
    discovered devices does not point to. *)
Definition keeps_owned (s : World) (c : Call) : Prop :=
  match c with
  | FreeStringCall (Some l) =>
    (l ∉ owned (g_discovered_devices (globals s))) ∧ is_Some (heap s !! l)
  | _ => True
  end.

(** A sequence of calls each of which respects that ownership in the world
    it is made in. *)
Fixpoint polite (cs : list Call) (s : World) : Prop :=
  match cs with
  | [] => True
  | c :: rest =>
    keeps_owned s c ∧ ∀ s', step c s = Some (tt, s') → polite rest s'
  end.


(** Watcher [w] has been created and is not the current watcher: its scan
    is over. *)
Definition scan_over (w : watcher) (s : World) : Prop :=
  (w < next_watcher s)%positive ∧ g_watcher (globals s) ≠ Some w.

(** Every device of the list carries a signal strength and an address. *)
Definition devices_complete (s : World) : Prop :=
  Forall (λ device, hasRssi device = 1 ∧ address device ≠ None)
         (g_discovered_devices (globals s)).

(** A watcher exists only in an initialized library. *)
Definition watcher_needs_init (s : World) : Prop :=
  g_watcher (globals s) ≠ None → g_initialized (globals s) = true.

(** The name a device carries, as the callback reads it: nothing for a null
    pointer, the array otherwise. *)
Definition name_of (s : World) (device : BLEDevice) : option cbuf :=
  match name device with
  | Some l => heap s !! l
  | None => None
  end.

(** [pre] is the text of the local name: its code units before the first
    zero unit, all of them when it holds none. *)
Definition up_to_zero (localName pre : hstring) : Prop :=
  (0 ∉ pre) ∧ (localName = pre ∨ ∃ rest, localName = pre ++ 0 :: rest).

(** What the handler leaves behind when it reports [device] for [args]:
    the device is appended and handed to the callback; its signal strength
    and address come from [args]; its name is null for an empty local name
    and otherwise a fresh array with the converted local name; no other
    array changes. *)
Definition received_report (args : ReceivedEventArgs) (s s' : World)
    (device : BLEDevice) : Prop :=
  reported s s' device
  ∧ globals s' = push_back device (globals s)
  ∧ next_watcher s' = next_watcher s
  ∧ rssi device = RawSignalStrengthInDBm args
  ∧ hasRssi device = 1
  ∧ (∃ a, address device = Some a
          ∧ heap s !! a = None
          ∧ is_Some (heap s' !! a)
          ∧ heap s' !! a = format_bluetooth_address_buf (BluetoothAddress args))
  ∧ match name device with
    | None => LocalName (Advertisement args) = []
    | Some l =>
      LocalName (Advertisement args) ≠ []
      ∧ heap s !! l = None
      ∧ heap s' !! l = Some (hstring_to_cstring_buf (LocalName (Advertisement args)))
    end
  ∧ NoDup (device_ptrs device)
  ∧ ∀ l, l ∉ device_ptrs device → heap s' !! l = heap s !! l.

(** ** A sample session *)

Definition sample_platform : Platform :=
  {| init_apartment_throws := false; scan_throws := None;
     adapter := RadioIs RadioOn |}.

(** A wide string literal of ASCII characters. *)
Definition wide (text : string) : hstring :=
  map Z_of_char (list_ascii_of_string text).

Definition sample_args (localName : hstring) : ReceivedEventArgs :=
  {| BluetoothAddress := 0x0123456789AB;
     RawSignalStrengthInDBm := -60;
     Advertisement := {| LocalName := localName; Flags := Some 6;
                         ServiceUuids := []; ManufacturerData := [];
                         DataSections := [] |} |}.

Definition world_after {A} (c : M A) (s : World) : World :=
  match c s with
  | Some (_, s') => s'
  | None => s
  end.

(** A scan for NIOX devices only, and one for all devices, each started on
    the initial world. *)
Definition niox_scan : World :=
  world_after (winrt_start_scan sample_platform 1000 1 (Some 7%positive) (Some 99))
              initial_world.

Definition open_scan : World :=
  world_after (winrt_start_scan sample_platform 1000 0 (Some 7%positive) (Some 99))
              initial_world.

(** The first scan after it has found a NIOX device. *)
Definition niox_scan_found : World :=
  world_after (deliver (sample_args (wide "NIOX PRO 0042"))) niox_scan.

(** And after [winrt_cleanup]. *)
Definition niox_scan_cleaned : World := world_after winrt_cleanup niox_scan_found.

Definition found_device : BLEDevice :=
  {| name := Some 1%positive; address := Some 2%positive; rssi := -60; hasRssi := 1 |}.

(** A local name with a letter outside ASCII, NIOX PRO followed by a space
    and U+00E9, and the first scan after it has been received. *)
Definition accented_name : hstring := wide "NIOX PRO " ++ [0xE9].

Definition niox_scan_accented : World :=
  world_after (deliver (sample_args accented_name)) niox_scan.

(** ** Vocabulary of the further properties *)

(** The devices handed to callbacks, in the order of the calls. *)
Fixpoint callback_devices (effs : list Effect) : list BLEDevice :=
  match effs with
  | [] => []
  | Callback _ device _ :: rest => device :: callback_devices rest
  | _ :: rest => callback_devices rest
  end.

(** The watchers that exist after [effs]: created and not yet released. *)
Definition watcher_effect (live : list watcher) (e : Effect) : list watcher :=
  match e with
  | WatcherCreate w => live ++ [w]
  | WatcherRelease w => List.filter (λ x, negb (Pos.eqb x w)) live
  | _ => live
  end.

Definition live_watchers (effs : list Effect) : list watcher :=
  fold_left watcher_effect effs [].

(** Whether a timer thread is detached among [effs]. *)
Definition detaches_thread (effs : list Effect) : bool :=
  existsb (λ e, match e with ThreadDetach _ => true | _ => false end) effs.

(** Every live array ends with a NUL. *)
Definition heap_terminated (s : World) : Prop :=
  ∀ (l : loc) (buf : cbuf), heap s !! l = Some buf → last buf = Some NUL.

(** The watcher the library holds is the only one that exists. *)
Definition one_watcher (s : World) : Prop :=
  live_watchers (effects s) = option_list (g_watcher (globals s)).

(** With a callback registered, the devices of the list are the last devices
    that were handed to a callback, in the same order. *)
Definition listed_were_called (s : World) : Prop :=
  g_callback (globals s) = None
  ∨ g_discovered_devices (globals s) `suffix_of` callback_devices (effects s).

(** The platform can initialize the library, or it is initialized already. *)
Definition can_initialize (pf : Platform) (s : World) : bool :=
  g_initialized (globals s) || negb (init_apartment_throws pf).

(** The sample scan stopped, with its device still in the list. *)
Definition niox_scan_stopped : World := world_after winrt_stop_scan niox_scan_found.

(** Watcher [w] has been created, and for as long as it is the current
    watcher the list of discovered devices extends [base]. *)
Definition results_extend (w : watcher) (base : list BLEDevice) (s : World) : Prop :=
  (w < next_watcher s)%positive
  ∧ (g_watcher (globals s) = Some w →
     base `prefix_of` g_discovered_devices (globals s)).

(** The sample scan started again after it was stopped. *)
Definition niox_scan_restarted : World :=
  world_after (winrt_start_scan sample_platform 1000 1 (Some 7%positive) (Some 99))
              niox_scan_stopped.

(** A platform on which [init_apartment] throws, and one on which the
    watcher cannot be started. *)
Definition no_apartment : Platform :=
  {| init_apartment_throws := true; scan_throws := None;
     adapter := RadioIs RadioOn |}.

Definition no_start : Platform :=
  {| init_apartment_throws := false; scan_throws := Some AtStart;
     adapter := RadioIs RadioOn |}.

(** The calls and events that lead to [niox_scan_found]. *)
Definition sample_session : list Call :=
  [StartScanCall sample_platform 1000 1 (Some 7%positive) (Some 99);
   ReceivedEvent (sample_args (wide "Thermometer"));
   ReceivedEvent (sample_args (wide "NIOX PRO 0042"))].

(** Calls of [winrt_start_scan], the only ones besides [winrt_cleanup] that
    clear the list of discovered devices. *)
Definition is_start_scan (c : Call) : bool :=
  match c with
  | StartScanCall _ _ _ _ _ => true
  | _ => false
  end.

(** Some calls and events between a [winrt_free_string] and the
    [winrt_cleanup] that follows: an advertisement is received, the scan is
    stopped, the adapter is asked for its state. *)
Definition calls_before_cleanup : list Call :=
  [ReceivedEvent (sample_args (wide "NIOX PRO 0043"));
   StopScanCall;
   CheckBluetoothStateCall sample_platform].

(** A session in which the client frees an array that is its own: the
    device found by the first scan is dropped from the list when the second
    scan starts, and the client then frees the name it was given, while the
    second scan goes on finding devices. *)
Definition polite_session : list Call :=
  [StartScanCall sample_platform 1000 1 (Some 7%positive) (Some 99);
   ReceivedEvent (sample_args (wide "NIOX PRO 0042"));
   StopScanCall;
   StartScanCall sample_platform 1000 0 (Some 7%positive) (Some 99);
   FreeStringCall (Some 1%positive);
   ReceivedEvent (sample_args (wide "Thermometer"))].

(** ** Time

    What [winrt_start_scan] detaches (lines 222-225) is a thread that sleeps
    for [durationMs] milliseconds and then calls [winrt_stop_scan]. Nothing
    keeps a handle of that thread, so no later call cancels it, and when it
    wakes up it stops the watcher that is current then. A timed world is a
    world with a clock, in milliseconds, and the times at which the threads
    that are still asleep wake up. *)
Record Timed := { world : World; now : Z; sleeping : list Z }.

Definition initial_timed : Timed :=
  {| world := initial_world; now := 0; sleeping := [] |}.

(** The threads that the effects [effs], logged at time [t], start: one for
    each [ThreadDetach], waking [durationMs] milliseconds later, at once for
    a duration that is not positive. *)
Fixpoint detached (t : Z) (effs : list Effect) : list Z :=
  match effs with
  | [] => []
  | ThreadDetach durationMs :: rest => (t + Z.max 0 durationMs) :: detached t rest
  | _ :: rest => detached t rest
  end.

(** The threads in [due] wake up: each one calls [winrt_stop_scan]. *)
Fixpoint wake (due : list Z) : M unit :=
  match due with
  | [] => ret tt
  | _ :: rest => exec winrt_stop_scan ;; wake rest
  end.

(** Either something happens to the library at the current time, or time
    passes. *)
Inductive TimedEvent :=
| At (c : Call)
| Elapse (dt : Z).

Definition timed_step (e : TimedEvent) (t : Timed) : option Timed :=
  match e with
  | At c =>
    match step c (world t) with
    | Some (_, s') =>
      Some {| world := s'; now := now t;
              sleeping := sleeping t
                          ++ detached (now t)
                               (drop (length (effects (world t))) (effects s')) |}
    | None => None
    end
  | Elapse dt =>
    let later := now t + Z.max 0 dt in
    match wake (List.filter (λ w, w <=? later) (sleeping t)) (world t) with
    | Some (_, s') =>
      Some {| world := s'; now := later;
              sleeping := List.filter (λ w, later <? w) (sleeping t) |}
    | None => None
    end
  end.

Fixpoint timed_run (es : list TimedEvent) (t : Timed) : option Timed :=
  match es with
  | [] => Some t
  | e :: rest =>
    match timed_step e t with
    | Some t' => timed_run rest t'
    | None => None
    end
  end.

(** A scan of 200 ms that the client stops after 10 ms, starting at once a
    scan of 5000 ms. *)
Definition short_scan : Call :=
  StartScanCall sample_platform 200 0 (Some 7%positive) (Some 99).

Definition long_scan : Call :=
  StartScanCall sample_platform 5000 0 (Some 7%positive) (Some 99).

Definition timed_after (es : list TimedEvent) (t : Timed) : Timed :=
  match timed_run es t with
  | Some t' => t'
  | None => t
  end.

Definition short_scan_started : Timed := timed_after [At short_scan] initial_timed.

Definition short_scan_stopped : Timed :=
  timed_after [Elapse 10; At StopScanCall] short_scan_started.

Definition long_scan_started : Timed := timed_after [At long_scan] short_scan_stopped.

Definition long_scan_running : Timed := timed_after [Elapse 189] long_scan_started.

Definition long_scan_cut : Timed := timed_after [Elapse 1] long_scan_running.

(** * Properties *)

(** ** Address formatting *)

(** A property of bytes checked on all 256 of them. *)
Lemma forall_bytes (f : Z → bool) :
  forallb f (seqZ 0 256) = true → ∀ b, 0 ≤ b < 256 → f b = true.
Proof.
  intros Hall b Hb. rewrite forallb_forall in Hall.
  apply Hall, list_elem_of_In, elem_of_seqZ. lia.
Qed.

Lemma fmt_02X_byte (b : Z) :
  0 ≤ b < 256 →
  ∃ hi lo, fmt_02X b = [hi; lo] ∧ parse_hex_pair hi lo = Some b.
Proof.
  intros Hb.
  assert (Hok : pair_reads_back b = true).
  { revert b Hb. apply forall_bytes. vm_compute. reflexivity. }
  unfold pair_reads_back in Hok.
  destruct (fmt_02X b) as [|hi [|lo [|? ?]]]; try discriminate.
  exists hi, lo. split; [reflexivity|].
  destruct (parse_hex_pair hi lo) as [v|]; [|discriminate].
  apply Z.eqb_eq in Hok. by subst.
Qed.

(** Byte [k] of an address, as the source extracts it. *)
Lemma address_byte_range (address k : Z) :
  0 ≤ Z.land (Z.shiftr address k) 0xFF < 256.
Proof.
  change 0xFF with (Z.ones 8). rewrite Z.land_ones by lia.
  apply Z.mod_pos_bound. lia.
Qed.

Lemma address_byte_div (address k : Z) :
  0 ≤ k →
  Z.land (Z.shiftr address k) 0xFF = (address `div` 2 ^ k) `mod` 256.
Proof.
  intros Hk. change 0xFF with (Z.ones 8).
  rewrite Z.land_ones by lia. by rewrite Z.shiftr_div_pow2.
Qed.

Lemma address_bytes_sum (a : Z) :
  (((((a `div` 2 ^ 40) `mod` 256 * 256 + (a `div` 2 ^ 32) `mod` 256) * 256
      + (a `div` 2 ^ 24) `mod` 256) * 256 + (a `div` 2 ^ 16) `mod` 256) * 256
      + (a `div` 2 ^ 8) `mod` 256) * 256 + a `mod` 256
  = a `mod` 2 ^ 48.
Proof.
  pose proof (Z.rem_mul_r a (2 ^ 40) 256 ltac:(lia) ltac:(lia)) as H5.
  pose proof (Z.rem_mul_r a (2 ^ 32) 256 ltac:(lia) ltac:(lia)) as H4.
  pose proof (Z.rem_mul_r a (2 ^ 24) 256 ltac:(lia) ltac:(lia)) as H3.
  pose proof (Z.rem_mul_r a (2 ^ 16) 256 ltac:(lia) ltac:(lia)) as H2.
  pose proof (Z.rem_mul_r a (2 ^ 8) 256 ltac:(lia) ltac:(lia)) as H1.
  change (2 ^ 40 * 256) with (2 ^ 48) in H5.
  change (2 ^ 32 * 256) with (2 ^ 40) in H4.
  change (2 ^ 24 * 256) with (2 ^ 32) in H3.
  change (2 ^ 16 * 256) with (2 ^ 24) in H2.
  change (2 ^ 8 * 256) with (2 ^ 16) in H1.
  change (2 ^ 8) with 256 in *.
  lia.
Qed.

Lemma address_byte_low48 (address k : Z) :
  0 ≤ k ≤ 40 →
  Z.land (Z.shiftr (address `mod` 2 ^ 48) k) 0xFF
  = Z.land (Z.shiftr address k) 0xFF.
Proof.
  intros Hk. rewrite <- (Z.land_ones address 48) by lia.
  change 0xFF with (Z.ones 8).
  apply Z.bits_inj'. intros n Hn.
  rewrite !Z.land_spec, !Z.shiftr_spec, Z.land_spec by lia.
  rewrite !Z.testbit_ones_nonneg by lia.
  destruct (Z.ltb_spec n 8) as [Hlt|Hge].
  - replace (n + k <? 48) with true by (symmetry; apply Z.ltb_lt; lia).
    by rewrite andb_true_r.
  - by rewrite !andb_false_r.
Qed.

Lemma hex_digit_not_NUL (c : ascii) (v : Z) :
  hex_digit_value c = Some v → Ascii.eqb c NUL = false.
Proof.
  intros Hv. apply Ascii.eqb_neq. intros ->. discriminate.
Qed.

Lemma hex_pair_not_NUL (hi lo : ascii) (b : Z) :
  parse_hex_pair hi lo = Some b →
  Ascii.eqb hi NUL = false ∧ Ascii.eqb lo NUL = false.
Proof.
  unfold parse_hex_pair. intros Hp.
  destruct (hex_digit_value hi) as [h|] eqn:Hh; [|discriminate].
  destruct (hex_digit_value lo) as [l|] eqn:Hl; [|discriminate].
  eauto using hex_digit_not_NUL.
Qed.

(** The array [format_bluetooth_address] fills: seventeen characters that
    read back as the low 48 bits of the address, and the terminator. *)
Lemma format_bluetooth_address_buf_text (address : Z) :
  ∃ text,
    format_bluetooth_address_buf address = Some (text ++ [NUL])
    ∧ length text = 17%nat
    ∧ cstr (text ++ [NUL]) = text
    ∧ parse_address text = Some (address `mod` 2 ^ 48).
Proof.
  unfold format_bluetooth_address_buf, sprintf_address.
  destruct (fmt_02X_byte _ (address_byte_range address 40)) as (h5 & l5 & -> & P5).
  destruct (fmt_02X_byte _ (address_byte_range address 32)) as (h4 & l4 & -> & P4).
  destruct (fmt_02X_byte _ (address_byte_range address 24)) as (h3 & l3 & -> & P3).
  destruct (fmt_02X_byte _ (address_byte_range address 16)) as (h2 & l2 & -> & P2).
  destruct (fmt_02X_byte _ (address_byte_range address 8)) as (h1 & l1 & -> & P1).
  destruct (fmt_02X_byte (Z.land address 0xFF)) as (h0 & l0 & -> & P0).
  { pose proof (address_byte_range address 0) as H0.
    by rewrite Z.shiftr_0_r in H0. }
  eexists. split; [reflexivity|]. split; [reflexivity|]. split.
  - destruct (hex_pair_not_NUL _ _ _ P5) as [E1 E2].
    destruct (hex_pair_not_NUL _ _ _ P4) as [E3 E4].
    destruct (hex_pair_not_NUL _ _ _ P3) as [E5 E6].
    destruct (hex_pair_not_NUL _ _ _ P2) as [E7 E8].
    destruct (hex_pair_not_NUL _ _ _ P1) as [E9 E10].
    destruct (hex_pair_not_NUL _ _ _ P0) as [E11 E12].
    simpl. by rewrite E1, E2, E3, E4, E5, E6, E7, E8, E9, E10, E11, E12.
  - unfold parse_address. simpl. rewrite P5, P4, P3, P2, P1, P0. f_equal.
    rewrite !address_byte_div by lia.
    rewrite <- (address_bytes_sum address).
    replace (Z.land address 255) with (address `mod` 256); [lia|].
    change 255 with (Z.ones 8). by rewrite Z.land_ones by lia.
Qed.

Lemma format_bluetooth_address_buf_low48 (address : Z) :
  format_bluetooth_address_buf (address `mod` 2 ^ 48)
  = format_bluetooth_address_buf address.
Proof.
  unfold format_bluetooth_address_buf.
  rewrite !address_byte_low48 by lia.
  pose proof (address_byte_low48 address 0 ltac:(lia)) as H0.
  rewrite !Z.shiftr_0_r in H0. by rewrite H0.
Qed.

(** C4: for every address value, [format_bluetooth_address] returns a newly
    allocated array holding a NUL-terminated text of seventeen characters;
    the text has the form XX:XX:XX:XX:XX:XX in upper-case hexadecimal with
    the byte of bits 47-40 first and that of bits 7-0 last, so that it reads
    back as the low 48 bits of the address; bits 48 and above do not affect
    the result. *)
Theorem format_bluetooth_address_spec (address : Z) (s : World) :
  ∃ (p : loc) (text : list ascii) (s' : World),
    format_bluetooth_address address s = Some (p, s')
    ∧ heap s !! p = None
    ∧ heap s' = <[p := text ++ [NUL]]> (heap s)
    ∧ globals s' = globals s
    ∧ effects s' = effects s
    ∧ length text = 17%nat
    ∧ cstr (text ++ [NUL]) = text
    ∧ parse_address text = Some (address `mod` 2 ^ 48)
    ∧ format_bluetooth_address (address `mod` 2 ^ 48) s
      = format_bluetooth_address address s.
Proof.
  destruct (format_bluetooth_address_buf_text address) as (text & Hbuf & Hlen & Hstr & Hparse).
  exists (fresh (dom (heap s))), text.
  unfold format_bluetooth_address.
  rewrite format_bluetooth_address_buf_low48, Hbuf. unfold new_array.
  eexists. split; [reflexivity|]. simpl.
  split; [apply not_elem_of_dom, is_fresh|]. done.
Qed.

Example format_bluetooth_address_example :
  format_bluetooth_address_buf 0xFFFF0123456789AB
  = Some (list_ascii_of_string "01:23:45:67:89:AB" ++ [NUL]).
Proof. reflexivity. Qed.

(** ** C strings and the name prefix *)

#[local] Arguments Ascii.eqb : simpl never.
#[local] Arguments Z_of_char : simpl never.

Lemma Z_of_char_inj (c1 c2 : ascii) : Z_of_char c1 = Z_of_char c2 → c1 = c2.
Proof.
  unfold Z_of_char. intros H%N2Z.inj.
  rewrite <- (ascii_N_embedding c1), <- (ascii_N_embedding c2). by rewrite H.
Qed.

(** Comparing against a NUL-terminated [p] over the length of [p] yields 0
    exactly when the C string in the array starts with [p]. *)
Lemma strncmp_prefix (p : list ascii) (buf : cbuf) :
  NUL ∉ p →
  strncmp buf (p ++ [NUL]) (length p) = 0 ↔ p `prefix_of` cstr buf.
Proof.
  revert buf. induction p as [|c p IH]; intros buf Hnul.
  { simpl. split; [intros _; apply prefix_nil | reflexivity]. }
  assert (Hc : c ≠ NUL) by (intros ->; apply Hnul; left).
  assert (Hp : NUL ∉ p) by (intros ?; apply Hnul; by right).
  simpl. destruct buf as [|c1 rest]; simpl.
  - destruct (Ascii.eqb_spec NUL c) as [E|_]; [by destruct Hc|]. simpl.
    split; [|by intros ?%prefix_nil_inv].
    intros E. exfalso. apply Hc, Z_of_char_inj. lia.
  - destruct (Ascii.eqb_spec c1 c) as [->|Hne]; simpl.
    + destruct (Ascii.eqb_spec c NUL) as [E|_]; [done|].
      rewrite IH by done. split; [apply prefix_cons | apply prefix_cons_inv_2].
    + split.
      * intros E. exfalso. apply Hne, Z_of_char_inj. lia.
      * destruct (Ascii.eqb_spec c1 NUL) as [->|_].
        -- by intros ?%prefix_nil_inv.
        -- intros ?%prefix_cons_inv_1. done.
Qed.

Lemma strlen_NIOX_PREFIX : strlen NIOX_PREFIX = length niox_text.
Proof. reflexivity. Qed.

(** [is_niox_device] on a live array: true exactly when the C string in it
    starts with [niox_text]. *)
Lemma is_niox_device_live (l : loc) (buf : cbuf) (s : World) :
  heap s !! l = Some buf →
  ∃ b, is_niox_device (Some l) s = Some (b, s)
       ∧ (b = true ↔ niox_text `prefix_of` cstr buf).
Proof.
  intros Hl. unfold is_niox_device, bind, read_array, ret. rewrite Hl.
  eexists. split; [reflexivity|].
  rewrite Z.eqb_eq, strlen_NIOX_PREFIX.
  apply (strncmp_prefix niox_text).
  apply (bool_decide_unpack _). by vm_compute.
Qed.

Lemma is_niox_device_null (s : World) : is_niox_device None s = Some (false, s).
Proof. reflexivity. Qed.

(** ** Converting the whole local name *)

Lemma Z_of_char_of_Z (z : Z) : Z_of_char (char_of_Z z) = z `mod` 256.
Proof.
  unfold Z_of_char, char_of_Z.
  pose proof (Z.mod_pos_bound z 256 ltac:(lia)) as Hb.
  rewrite N_ascii_embedding by lia. lia.
Qed.

(** A byte with its top bit set is not an ASCII character. *)
Lemma top_bit_set (m x : Z) :
  Z.testbit m 7 = true → 128 ≤ Z_of_char (char_of_Z (Z.lor m x)).
Proof.
  intros Hm. rewrite Z_of_char_of_Z.
  pose proof (Z.mod_pos_bound (Z.lor m x) 256 ltac:(lia)) as Hb.
  assert (Hbit : Z.testbit (Z.lor m x `mod` 256) 7 = true).
  { change 256 with (2 ^ 8). rewrite Z.mod_pow2_bits_low by lia.
    by rewrite Z.lor_spec, Hm. }
  apply Z.testbit_true in Hbit; [|lia].
  change (2 ^ 7) with 128 in Hbit.
  destruct (Z.lt_ge_cases (Z.lor m x `mod` 256) 128) as [Hlt|Hge]; [|lia].
  rewrite Z.div_small in Hbit by lia. discriminate.
Qed.



Lemma WideCharToMultiByte_ascii (u : Z) (rest : list Z) :
  0 ≤ u < 128 →
  WideCharToMultiByte (u :: rest) = char_of_Z u :: WideCharToMultiByte rest.
Proof.
  intros Hu. cbn [WideCharToMultiByte]. unfold is_high_surrogate, is_low_surrogate.
  replace (0xD800 <=? u) with false by (symmetry; apply Z.leb_gt; lia).
  replace (0xDC00 <=? u) with false by (symmetry; apply Z.leb_gt; lia).
  simpl. unfold utf8_encode.
  by replace (u <? 0x80) with true by (symmetry; apply Z.ltb_lt; lia).
Qed.



(** ** Running the handler *)

Lemma bind_run {A B} (c : M A) (k : A → M B) (s : World) (a : A) (s1 : World) :
  c s = Some (a, s1) → bind c k s = k a s1.
Proof. unfold bind. by intros ->. Qed.

Lemma world_eta (s : World) :
  {| globals := globals s; heap := heap s; next_watcher := next_watcher s;
     effects := effects s |} = s.
Proof. by destruct s. Qed.

Lemma format_bluetooth_address_run (address : Z) (s : World) :
  ∃ buf,
    format_bluetooth_address_buf address = Some buf
    ∧ format_bluetooth_address address s
      = Some (fresh (dom (heap s)),
              {| globals := globals s;
                 heap := <[fresh (dom (heap s)) := buf]> (heap s);
                 next_watcher := next_watcher s; effects := effects s |}).
Proof.
  destruct (format_bluetooth_address_buf_text address) as (text & Hbuf & _).
  exists (text ++ [NUL]). split; [done|].
  unfold format_bluetooth_address. by rewrite Hbuf.
Qed.

Lemma fresh_not_live (h : gmap loc cbuf) : h !! fresh (dom h) = None.
Proof. apply not_elem_of_dom, is_fresh. Qed.

(** The part of the handler after [should_report] is found true. *)
Lemma report_run (args : ReceivedEventArgs) (nm : ptr) (s0 s : World) :
  globals s = globals s0 →
  effects s = effects s0 →
  next_watcher s = next_watcher s0 →
  match nm with
  | None => LocalName (Advertisement args) = [] ∧ heap s = heap s0
  | Some l =>
    LocalName (Advertisement args) ≠ []
    ∧ heap s0 !! l = None
    ∧ heap s = <[l := hstring_to_cstring_buf (LocalName (Advertisement args))]> (heap s0)
  end →
  ∃ s' device,
    (a <- format_bluetooth_address (BluetoothAddress args) ;;
     let device := {| name := nm; address := Some a;
                      rssi := RawSignalStrengthInDBm args; hasRssi := 1 |} in
     exec update_globals (push_back device) ;;
     g <- get_globals ;;
     match g_callback g with
     | Some cb => emit (Callback cb device (g_user_data g))
     | None => ret tt
     end) s = Some (tt, s')
    ∧ name device = nm
    ∧ received_report args s0 s' device.
Proof.
  intros Hg He Hw Hnm.
  destruct (format_bluetooth_address_run (BluetoothAddress args) s)
    as (abuf & Habuf & Hrun).
  set (a := fresh (dom (heap s))) in *.
  assert (Ha : heap s !! a = None) by apply fresh_not_live.
  set (device := {| name := nm; address := Some a;
                    rssi := RawSignalStrengthInDBm args; hasRssi := 1 |}).
  exists {| globals := push_back device (globals s);
            heap := <[a := abuf]> (heap s);
            next_watcher := next_watcher s;
            effects := effects s
                       ++ match g_callback (globals s) with
                          | Some cb => [Callback cb device (g_user_data (globals s))]
                          | None => []
                          end |}, device.
  split.
  { rewrite (bind_run _ _ _ _ _ Hrun).
    unfold bind, update_globals, get_globals, emit, ret. simpl.
    destruct (g_callback (globals s)); [done|]. by rewrite app_nil_r. }
  split; [done|].
  assert (Ha0 : heap s0 !! a = None).
  { destruct nm as [l|]; [|by destruct Hnm as [_ <-]].
    destruct Hnm as (_ & _ & Hh). rewrite Hh in Ha.
    by apply lookup_insert_None in Ha as [? _]. }
  (* the name array, when there is one, is not the address array *)
  assert (Hla : ∀ l, nm = Some l → l ≠ a).
  { intros l -> ->. destruct Hnm as (_ & _ & Hh).
    by rewrite Hh, lookup_insert_eq in Ha. }
  unfold received_report, reported, reported_to. simpl.
  rewrite <- Hg, <- He, <- Hw.
  split; [done|]. split; [done|]. split; [done|]. split; [done|]. split; [done|].
  split; [|split; [|split]].
  - exists a. rewrite lookup_insert_eq. eauto.
  - destruct nm as [l|]; [|by destruct Hnm].
    destruct Hnm as (Hne & Hl & Hh). split; [done|]. split; [done|].
    rewrite lookup_insert_ne by (apply not_eq_sym; by apply Hla).
    by rewrite Hh, lookup_insert_eq.
  - unfold device_ptrs. simpl. destruct nm as [l|]; simpl.
    + apply NoDup_cons. split; [|apply NoDup_singleton].
      intros ->%list_elem_of_singleton. by apply (Hla a).
    + apply NoDup_singleton.
  - unfold device_ptrs. simpl. intros p Hp.
    rewrite lookup_insert_ne by (intros ->; apply Hp, elem_of_app; right; left).
    destruct nm as [l|]; [|by destruct Hnm as [_ ->]].
    destruct Hnm as (_ & _ & ->).
    rewrite lookup_insert_ne; [done|]. intros ->. apply Hp. left.
Qed.

Lemma utf8_name_empty : utf8_name [] = [].
Proof. reflexivity. Qed.

Lemma niox_text_not_prefix_nil : ¬ niox_text `prefix_of` [].
Proof. by intros ?%prefix_nil_inv. Qed.

(** Every advertisement is handled, in one of two ways: filtered out, which
    leaves the world as it was, or reported. *)
Lemma on_received_run (args : ReceivedEventArgs) (s : World) :
  ∃ s',
    on_received args s = Some (tt, s')
    ∧ ((g_niox_only (globals s) = true
        ∧ ¬ niox_text `prefix_of` utf8_name (LocalName (Advertisement args))
        ∧ s' = s)
       ∨ ((g_niox_only (globals s) = false
           ∨ niox_text `prefix_of` utf8_name (LocalName (Advertisement args)))
          ∧ ∃ device, received_report args s s' device)).
Proof.
  unfold on_received.
  destruct (bool_decide_reflect (LocalName (Advertisement args) = [])) as [Hnil|Hne].
  - (* no local name: [name] stays null *)
    rewrite (bind_run _ _ s None s) by reflexivity.
    rewrite (bind_run _ _ s (globals s) s) by reflexivity.
    destruct (g_niox_only (globals s)) eqn:Hniox.
    + rewrite (bind_run _ _ s false s) by reflexivity. simpl.
      exists s. split; [reflexivity|]. left.
      rewrite Hnil, utf8_name_empty. eauto using niox_text_not_prefix_nil.
    + rewrite (bind_run _ _ s true s) by reflexivity. simpl.
      destruct (report_run args None s s) as (s' & device & Hrun & _ & Hrep); try done.
      exists s'. split; [exact Hrun|]. right. eauto.
  - (* a local name: converted into a fresh array *)
    set (l := fresh (dom (heap s))).
    set (buf := hstring_to_cstring_buf (LocalName (Advertisement args))).
    set (s1 := {| globals := globals s; heap := <[l := buf]> (heap s);
                  next_watcher := next_watcher s; effects := effects s |}).
    assert (Hl : heap s !! l = None) by apply fresh_not_live.
    assert (Hl1 : heap s1 !! l = Some buf) by apply lookup_insert_eq.
    rewrite (bind_run _ _ s (Some l) s1) by reflexivity.
    rewrite (bind_run _ _ s1 (globals s) s1) by reflexivity.
    destruct (g_niox_only (globals s)) eqn:Hniox.
    + destruct (is_niox_device_live l buf s1 Hl1) as (b & Hb & Hiff).
      rewrite (bind_run _ _ _ _ _ Hb). destruct b; simpl.
      * destruct (report_run args (Some l) s s1) as (s' & device & Hrun & _ & Hrep);
          try done.
        exists s'. split; [exact Hrun|]. right. split; [|eauto].
        right. by apply Hiff.
      * exists s. split.
        { unfold delete_array. rewrite Hl1. simpl.
          by rewrite delete_insert_id, world_eta. }
        left. repeat split; try done. intros Hp. apply Hiff in Hp. done.
    + rewrite (bind_run _ _ s1 true s1) by reflexivity. simpl.
      destruct (report_run args (Some l) s s1) as (s' & device & Hrun & _ & Hrep);
        try done.
      exists s'. split; [exact Hrun|]. right. eauto.
Qed.

(** ** Frames of the exported functions *)

(** Unfolds a computation down to the primitives. *)
Ltac run_m :=
  unfold step, winrt_start_scan, winrt_check_bluetooth_state, winrt_initialize,
    winrt_stop_scan, winrt_free_string, deliver, scan_reset, scan_launch,
    scan_catch, stop_and_reset, delete_if, delete_array, make_watcher,
    update_globals, get_globals, emit, bind, ret in *.

Lemma free_devices_frame (ds : list BLEDevice) (s s' : World) :
  free_devices ds s = Some (tt, s') →
  globals s' = globals s ∧ next_watcher s' = next_watcher s
  ∧ effects s' = effects s.
Proof.
  revert s. induction ds as [|d ds IH]; intros s; simpl.
  { by intros [= <-]. }
  run_m. intros H.
  destruct (name d) as [l|], (address d) as [a|]; simpl in H;
    repeat case_match; simplify_eq/=; try done;
    apply IH in H; simpl in H; done.
Qed.

Lemma deliver_run (args : ReceivedEventArgs) (s : World) :
  ∃ s', deliver args s = Some (tt, s')
        ∧ (s' = s ∨ (g_watcher (globals s) ≠ None
                     ∧ ∃ device, received_report args s s' device)).
Proof.
  unfold deliver. rewrite (bind_run _ _ s (globals s) s) by reflexivity.
  destruct (g_watcher (globals s)) as [w|] eqn:Hw.
  - destruct (on_received_run args s) as (s' & Hrun & [(_ & _ & Hs)|[_ Hrep]]);
      exists s'; eauto 6.
  - exists s. eauto.
Qed.

Lemma received_report_globals (args : ReceivedEventArgs) (s s' : World)
    (device : BLEDevice) :
  received_report args s s' device →
  g_initialized (globals s') = g_initialized (globals s)
  ∧ g_watcher (globals s') = g_watcher (globals s)
  ∧ g_callback (globals s') = g_callback (globals s)
  ∧ g_user_data (globals s') = g_user_data (globals s)
  ∧ g_niox_only (globals s') = g_niox_only (globals s)
  ∧ next_watcher s' = next_watcher s.
Proof. intros (_ & Hg & Hw & _). rewrite Hg, Hw. done. Qed.

(** The world between the two halves of [winrt_cleanup]: the watcher
    stopped and released, nothing freed yet. *)
Lemma winrt_cleanup_run (s s' : World) :
  winrt_cleanup s = Some (tt, s') →
  globals s' = {| g_initialized := false; g_watcher := None;
                  g_discovered_devices := []; g_callback := None;
                  g_user_data := None;
                  g_niox_only := g_niox_only (globals s) |}
  ∧ next_watcher s' = next_watcher s
  ∧ effects s' = effects s
                 ++ match g_watcher (globals s) with
                    | Some w => [WatcherStop w; WatcherRelease w]
                    | None => []
                    end ++ [UninitApartment]
  ∧ ∃ s1 s2,
      heap s1 = heap s
      ∧ free_devices (g_discovered_devices (globals s)) s1 = Some (tt, s2)
      ∧ heap s' = heap s2.
Proof.
  unfold winrt_cleanup. rewrite (bind_run _ _ s (globals s) s) by reflexivity.
  set (s1 := match g_watcher (globals s) with
             | Some w =>
               {| globals := set_watcher None (globals s); heap := heap s;
                  next_watcher := next_watcher s;
                  effects := (effects s ++ [WatcherStop w]) ++ [WatcherRelease w] |}
             | None => s
             end).
  rewrite (bind_run _ _ s tt s1) by (subst s1; by destruct (g_watcher (globals s))).
  unfold bind at 1.
  destruct (free_devices (g_discovered_devices (globals s)) s1) as [[[] s2]|] eqn:Hfree;
    [|done].
  intros [= <-]. destruct (free_devices_frame _ _ _ Hfree) as (Hg & Hw & He).
  simpl. rewrite Hg, Hw, He.
  split; [|split; [|split]].
  4: { exists s1, s2. split; [|done]. subst s1. by destruct (g_watcher (globals s)). }
  all: subst s1; destruct (g_watcher (globals s)) eqn:Egw; simpl.
  all: rewrite <- ?app_assoc; try done.
  unfold set_initialized, set_user_data, set_callback, set_discovered_devices.
  simpl. by rewrite Egw.
Qed.

(** ** What a call of [winrt_start_scan] can do *)

(** It always returns, touches no array, and either leaves the scan
    variables alone (the library could not be initialized, or a watcher
    exists), or has no watcher before and none after (a statement of the
    [try] block threw), or starts a new watcher. *)
Lemma winrt_start_scan_run (pf : Platform) (durationMs nioxOnly : Z)
    (callback : DeviceFoundCallback) (userData : voidptr) (s : World) :
  ∃ r s',
    winrt_start_scan pf durationMs nioxOnly callback userData s = Some (r, s')
    ∧ heap s' = heap s
    ∧ (next_watcher s ≤ next_watcher s')%positive
    ∧ (g_initialized (globals s) = true → g_initialized (globals s') = true)
    ∧ ((r = -1
        ∧ g_watcher (globals s') = g_watcher (globals s)
        ∧ g_discovered_devices (globals s') = g_discovered_devices (globals s)
        ∧ g_niox_only (globals s') = g_niox_only (globals s)
        ∧ next_watcher s' = next_watcher s
        ∧ g_callback (globals s') = g_callback (globals s)
        ∧ g_user_data (globals s') = g_user_data (globals s))
       ∨ (r = -1
          ∧ g_watcher (globals s) = None
          ∧ g_watcher (globals s') = None
          ∧ g_initialized (globals s') = true
          ∧ g_discovered_devices (globals s') = [])
       ∨ (r = 0
          ∧ g_watcher (globals s) = None
          ∧ g_watcher (globals s') = Some (next_watcher s)
          ∧ g_initialized (globals s') = true
          ∧ next_watcher s' = Pos.succ (next_watcher s)
          ∧ g_discovered_devices (globals s') = [])).
Proof.
  destruct pf as [throws fault ad].
  unfold winrt_start_scan, winrt_initialize, scan_reset, scan_launch, scan_catch,
    throws_at, make_watcher, update_globals, get_globals, emit, bind, ret.
  cbn [init_apartment_throws scan_throws].
  assert (Hle : (next_watcher s ≤ Pos.succ (next_watcher s))%positive) by lia.
  destruct (g_initialized (globals s)) eqn:Hi; [|destruct throws];
    (destruct (g_watcher (globals s)) eqn:Hw; [|destruct fault as [[]|]]).
  all: repeat (progress (cbn -[Pos.succ]; rewrite ?Hi, ?Hw)).
  all: eexists _, _; (split; [reflexivity|]); cbn -[Pos.succ]; rewrite ?Hi, ?Hw.
  all: (split; [reflexivity|]); (split; [done|]); (split; [done|]).
  all: first [ by left | by right; right | by right; left ].
Qed.

(** ** The filter flag of a running scan *)

Section running_scan.

Variables (w : watcher) (b : bool) (cb : DeviceFoundCallback) (ud : voidptr).



End running_scan.

(** ** Starting a scan *)

(** What a call of [winrt_start_scan] that returns 0 has done. *)
Lemma winrt_start_scan_ok (pf : Platform) (durationMs nioxOnly : Z)
    (callback : DeviceFoundCallback) (userData : voidptr) (s s' : World) :
  winrt_start_scan pf durationMs nioxOnly callback userData s = Some (0, s') →
  g_watcher (globals s) = None
  ∧ globals s' = {| g_initialized := true; g_watcher := Some (next_watcher s);
                    g_discovered_devices := []; g_callback := callback;
                    g_user_data := userData;
                    g_niox_only := negb (nioxOnly =? 0) |}
  ∧ next_watcher s' = Pos.succ (next_watcher s)
  ∧ heap s' = heap s
  ∧ effects s' =
      effects s
      ++ (if g_initialized (globals s) then [] else [InitApartment])
      ++ [WatcherCreate (next_watcher s);
          WatcherScanningMode (next_watcher s) Active;
          WatcherReceived (next_watcher s);
          WatcherStart (next_watcher s);
          ThreadDetach durationMs].
Proof.
  destruct pf as [throws fault ad].
  unfold winrt_start_scan, winrt_initialize, scan_reset, scan_launch, scan_catch,
    throws_at, make_watcher, update_globals, get_globals, emit, bind, ret.
  cbn [init_apartment_throws scan_throws].
  destruct (g_initialized (globals s)) eqn:Hi; [|destruct throws];
    (destruct (g_watcher (globals s)) eqn:Hw; [|destruct fault as [[]|]]).
  all: repeat (progress (cbn -[Pos.succ]; rewrite ?Hi, ?Hw)).
  all: intros H; simplify_eq; cbn -[Pos.succ]; rewrite ?Hi, ?Hw.
  all: rewrite <- ?app_assoc.
  all: unfold set_watcher, set_discovered_devices, set_niox_only, set_user_data,
         set_callback, set_initialized; cbn -[Pos.succ]; by rewrite ?Hi.
Qed.




(** Two reports between the same worlds are of the same device. *)
Lemma reported_inj (s s' : World) (d1 d2 : BLEDevice) :
  reported s s' d1 → reported s s' d2 → d1 = d2.
Proof.
  intros [H1 _] [H2 _]. rewrite H1 in H2.
  apply app_inv_head in H2. by simplify_eq.
Qed.

Lemma reported_changes (s : World) (device : BLEDevice) : ¬ reported s s device.
Proof.
  intros [Hd _]. apply (f_equal length) in Hd.
  rewrite length_app in Hd. simpl in Hd. lia.
Qed.

(** A device the handler appended or passed to the callback is the device
    of its report. *)
Lemma handled_device (args : ReceivedEventArgs) (s s' : World) (device : BLEDevice) :
  on_received args s = Some (tt, s') →
  g_discovered_devices (globals s') = g_discovered_devices (globals s) ++ [device]
  ∨ (∃ cb userData, effects s' = effects s ++ [Callback cb device userData]) →
  received_report args s s' device.
Proof.
  intros Hrun Hdev.
  destruct (on_received_run args s) as (s1 & Hrun1 & Hcases).
  rewrite Hrun in Hrun1. simplify_eq.
  destruct Hcases as [(_ & _ & ->)|[_ [d Hrep]]].
  - exfalso. destruct Hdev as [Hd|(cb & ud & He)].
    + apply (f_equal length) in Hd. rewrite length_app in Hd. simpl in Hd. lia.
    + apply (f_equal length) in He. rewrite length_app in He. simpl in He. lia.
  - assert (d = device) as ->; [|done].
    destruct Hrep as ([Hd He] & _). destruct Hdev as [Hd'|(cb & ud & He')].
    + rewrite Hd in Hd'. apply app_inv_head in Hd'. by simplify_eq.
    + rewrite He in He'. apply app_inv_head in He'.
      destruct (g_callback (globals s)); by simplify_eq.
Qed.

(** C9: every device the handler appends to the list or passes to the
    callback has [hasRssi] equal to 1, the raw signal strength of the
    advertisement as [rssi], and a non-null [address] pointing to a newly
    allocated array with the text [format_bluetooth_address] produces for
    the advertisement's address; [name] is null exactly when the
    advertisement's local name is empty. *)
Theorem reported_device_invariant (args : ReceivedEventArgs) (s s' : World)
    (device : BLEDevice) :
  on_received args s = Some (tt, s') →
  g_discovered_devices (globals s') = g_discovered_devices (globals s) ++ [device]
  ∨ (∃ cb userData, effects s' = effects s ++ [Callback cb device userData]) →
  hasRssi device = 1
  ∧ rssi device = RawSignalStrengthInDBm args
  ∧ (∃ a buf, address device = Some a
              ∧ heap s !! a = None
              ∧ heap s' !! a = Some buf
              ∧ format_bluetooth_address_buf (BluetoothAddress args) = Some buf)
  ∧ (name device = None ↔ LocalName (Advertisement args) = []).
Proof.
  intros Hrun Hdev.
  destruct (handled_device args s s' device Hrun Hdev)
    as (_ & _ & _ & Hrssi & Hhas & (a & Ha & Hfresh & [buf Hbuf] & Hfmt) & Hname & _).
  split; [done|]. split; [done|]. split.
  - exists a, buf. rewrite Hbuf in Hfmt. done.
  - destruct (name device) as [l|].
    + destruct Hname as [Hne _]. split; [done|]. intros ?. done.
    + done.
Qed.

(** The text of a local name is uniquely determined, and it is what
    [wcs] computes. *)
Lemma wcs_up_to_zero (h : hstring) : up_to_zero h (wcs h).
Proof.
  induction h as [|u rest [IHno IHcut]]; simpl.
  - split; [apply not_elem_of_nil|by left].
  - destruct (Z.eqb_spec u 0) as [->|Hu].
    + split; [apply not_elem_of_nil|]. right. by exists rest.
    + split.
      * intros [Heq|Hin]%elem_of_cons; [by apply Hu|by apply IHno].
      * destruct IHcut as [Hall|[more Hmore]].
        -- left. by rewrite <- Hall.
        -- right. exists more. simpl. by rewrite <- Hmore.
Qed.

Lemma up_to_zero_unique (h pre : hstring) : up_to_zero h pre → pre = wcs h.
Proof.
  revert h. induction pre as [|u pre IH]; intros h [Hno Hcut].
  - destruct Hcut as [->|[rest ->]]; reflexivity.
  - assert (Hu : u ≠ 0) by (intros ->; apply Hno; left).
    assert (Hpre : 0 ∉ pre) by (intros Hin; apply Hno; by right).
    assert (Htail : ∃ tl, h = u :: tl ∧ up_to_zero tl pre).
    { destruct Hcut as [->|[rest ->]].
      - exists pre. split; [done|]. split; [done|by left].
      - exists (pre ++ 0 :: rest). split; [done|]. split; [done|].
        right. by exists rest. }
    destruct Htail as (tl & -> & Htl). simpl.
    destruct (Z.eqb_spec u 0) as [?|_]; [done|].
    f_equal. by apply IH.
Qed.

Lemma wcs_whole (h : hstring) : 0 ∉ h → wcs h = h.
Proof.
  intros Hno. symmetry. apply up_to_zero_unique. split; [done|by left].
Qed.

(** C5: the name of a reported device, null or the contents of its array,
    is determined by the local name field of the advertisement alone. It is
    null for an empty local name; otherwise it is the array holding what
    the platform's conversion to UTF-8, [WideCharToMultiByte], gives for
    the text of the local name (its code units before the first zero unit,
    the whole local name when it holds none), followed by the terminator.
    An advertisement that differs in any other field is reported with the
    same name. *)
Theorem reported_name_from_local_name (args : ReceivedEventArgs) (s s' : World)
    (device : BLEDevice) :
  on_received args s = Some (tt, s') →
  reported s s' device →
  (∃ text,
     up_to_zero (LocalName (Advertisement args)) text
     ∧ (∀ text', up_to_zero (LocalName (Advertisement args)) text' → text' = text)
     ∧ name_of s' device
       = if bool_decide (LocalName (Advertisement args) = []) then None
         else Some (WideCharToMultiByte text ++ [NUL]))
  ∧ (LocalName (Advertisement args) ≠ [] →
     0 ∉ LocalName (Advertisement args) →
     name_of s' device
     = Some (WideCharToMultiByte (LocalName (Advertisement args)) ++ [NUL]))
  ∧ ∀ args2,
      LocalName (Advertisement args2) = LocalName (Advertisement args) →
      ∃ s2 device2,
        on_received args2 s = Some (tt, s2)
        ∧ reported s s2 device2
        ∧ name_of s2 device2 = name_of s' device.
Proof.
  intros Hrun [Hd He].
  assert (Hname : ∀ a t d,
    received_report a s t d →
    name_of t d
    = if bool_decide (LocalName (Advertisement a) = []) then None
      else Some (WideCharToMultiByte (wcs (LocalName (Advertisement a))) ++ [NUL])).
  { intros a t d (_ & _ & _ & _ & _ & _ & Hn & _).
    unfold name_of. destruct (name d) as [l|].
    - destruct Hn as (Hne & _ & ->). by rewrite bool_decide_eq_false_2.
    - by rewrite bool_decide_eq_true_2. }
  pose proof (handled_device args s s' device Hrun (or_introl Hd)) as Hrep.
  split.
  { exists (wcs (LocalName (Advertisement args))).
    split; [apply wcs_up_to_zero|].
    split; [intros text'; apply up_to_zero_unique|by apply Hname]. }
  split.
  { intros Hne Hno. rewrite (Hname _ _ _ Hrep), bool_decide_eq_false_2 by done.
    by rewrite wcs_whole. }
  intros args2 Hsame.
  destruct (on_received_run args s) as (t & Hrun1 & Hcases).
  rewrite Hrun in Hrun1. simplify_eq.
  destruct (on_received_run args2 s) as (s2 & Hrun2 & Hcases2).
  exists s2.
  destruct Hcases2 as [(Ht & Hnp & ->)|[_ [device2 Hrep2]]].
  - exfalso. destruct Hcases as [(_ & _ & ->)|[[Hf|Hp] _]].
    + by apply (reported_changes s device).
    + congruence.
    + rewrite Hsame in Hnp. done.
  - exists device2. split; [done|]. split; [apply Hrep2|].
    rewrite (Hname _ _ _ Hrep2), (Hname _ _ _ Hrep). by rewrite Hsame.
Qed.

(** ** Cleaning up *)

Lemma delete_if_run (p : ptr) (s : World) :
  (∀ l, p = Some l → is_Some (heap s !! l)) →
  delete_if p s
  = Some (tt, {| globals := globals s;
                 heap := match p with Some l => delete l (heap s) | None => heap s end;
                 next_watcher := next_watcher s; effects := effects s |}).
Proof.
  intros Hlive. destruct p as [l|]; simpl.
  - unfold delete_array. by destruct (Hlive l eq_refl) as [buf ->].
  - unfold ret. by rewrite world_eta.
Qed.

Lemma delete_if_inv (p : ptr) (s s' : World) :
  delete_if p s = Some (tt, s') →
  (∀ l, p = Some l → is_Some (heap s !! l))
  ∧ ∀ l, heap s' !! l = if bool_decide (l ∈ option_list p) then None else heap s !! l.
Proof.
  destruct p as [n|]; simpl.
  - unfold delete_array. destruct (heap s !! n) as [buf|] eqn:Hn; [|done].
    intros [= <-]. simpl. split; [by intros l [= <-]|].
    intros l. rewrite lookup_delete. simpl.
    destruct (decide (n = l)) as [->|Hne].
    + rewrite bool_decide_eq_true_2; [done|left].
    + rewrite bool_decide_eq_false_2; [done|].
      intros ?%list_elem_of_singleton. congruence.
  - intros [= <-]. split; [done|]. by intros l.
Qed.

Lemma delete_if_spec (p : ptr) (s : World) :
  (∀ l, p = Some l → is_Some (heap s !! l)) →
  ∃ s', delete_if p s = Some (tt, s')
        ∧ ∀ l, heap s' !! l
               = if bool_decide (l ∈ option_list p) then None else heap s !! l.
Proof.
  intros Hlive. eexists. split; [by apply delete_if_run|].
  by apply (delete_if_inv p s), delete_if_run.
Qed.

(** The loop frees what the list points to, and nothing else. *)
Lemma free_devices_total (ds : list BLEDevice) (s : World) :
  NoDup (owned ds) →
  (∀ l, l ∈ owned ds → is_Some (heap s !! l)) →
  ∃ s', free_devices ds s = Some (tt, s')
        ∧ (∀ l, l ∈ owned ds → heap s' !! l = None)
        ∧ (∀ l, l ∉ owned ds → heap s' !! l = heap s !! l).
Proof.
  revert s. induction ds as [|d ds IH]; intros s Hnd Hlive.
  { exists s. split; [done|]. split; [|done]. intros l Hl. by apply elem_of_nil in Hl. }
  simpl in Hnd, Hlive. unfold device_ptrs in Hnd, Hlive.
  apply NoDup_app in Hnd as (Hnd1 & Hdisj & Hnd2).
  apply NoDup_app in Hnd1 as (_ & Hna & _).
  assert (Hin_n : ∀ l, l ∈ option_list (name d) → is_Some (heap s !! l)).
  { intros l Hl. apply Hlive, elem_of_app. left. apply elem_of_app. by left. }
  assert (Hin_a : ∀ l, l ∈ option_list (address d) → is_Some (heap s !! l)).
  { intros l Hl. apply Hlive, elem_of_app. left. apply elem_of_app. by right. }
  cbn [free_devices].
  destruct (delete_if_spec (name d) s) as (s1 & H1 & Hs1).
  { intros l Hl. apply Hin_n. rewrite Hl. left. }
  rewrite (bind_run _ _ s tt s1 H1).
  destruct (delete_if_spec (address d) s1) as (s2 & H2 & Hs2).
  { intros l Hl. rewrite Hs1, bool_decide_eq_false_2.
    - apply Hin_a. rewrite Hl. left.
    - intros Hn. apply (Hna l Hn). rewrite Hl. left. }
  rewrite (bind_run _ _ s1 tt s2 H2).
  destruct (IH s2 Hnd2) as (s' & Hrun & Hfreed & Hkept).
  { intros l Hl. rewrite Hs2, bool_decide_eq_false_2.
    - rewrite Hs1, bool_decide_eq_false_2.
      + apply Hlive, elem_of_app. by right.
      + intros Hn. apply (Hdisj l); [|done]. apply elem_of_app. by left.
    - intros Hn. apply (Hdisj l); [|done]. apply elem_of_app. by right. }
  exists s'. split; [done|]. split.
  - intros l [[Hl|Hl]%elem_of_app|Hl]%elem_of_app; [| |by apply Hfreed].
    + destruct (decide (l ∈ owned ds)) as [Hin|Hnin]; [by apply Hfreed|].
      rewrite (Hkept l Hnin), Hs2. case_bool_decide; [done|].
      by rewrite Hs1, bool_decide_eq_true_2.
    + destruct (decide (l ∈ owned ds)) as [Hin|Hnin]; [by apply Hfreed|].
      by rewrite (Hkept l Hnin), Hs2, bool_decide_eq_true_2.
  - intros l Hl.
    assert (Hl1 : l ∉ option_list (name d)).
    { intros Hn. apply Hl, elem_of_app. left. apply elem_of_app. by left. }
    assert (Hl2 : l ∉ option_list (address d)).
    { intros Hn. apply Hl, elem_of_app. left. apply elem_of_app. by right. }
    assert (Hl3 : l ∉ owned ds).
    { intros Hn. apply Hl, elem_of_app. by right. }
    by rewrite (Hkept l Hl3), Hs2, bool_decide_eq_false_2, Hs1, bool_decide_eq_false_2.
Qed.

Lemma winrt_cleanup_total (s : World) :
  heap_owns s → ∃ s', winrt_cleanup s = Some (tt, s').
Proof.
  intros [Hnd Hlive].
  unfold winrt_cleanup. rewrite (bind_run _ _ s (globals s) s) by reflexivity.
  set (s1 := match g_watcher (globals s) with
             | Some w =>
               {| globals := set_watcher None (globals s); heap := heap s;
                  next_watcher := next_watcher s;
                  effects := (effects s ++ [WatcherStop w]) ++ [WatcherRelease w] |}
             | None => s
             end).
  rewrite (bind_run _ _ s tt s1) by (subst s1; by destruct (g_watcher (globals s))).
  destruct (free_devices_total (g_discovered_devices (globals s)) s1 Hnd)
    as (s2 & Hfree & _).
  { intros l Hl. subst s1. destruct (g_watcher (globals s)); by apply Hlive. }
  rewrite (bind_run _ _ s1 tt s2 Hfree). eexists. reflexivity.
Qed.

(** The loop runs to its end only if what the list points to is live and
    distinct. *)
Lemma free_devices_defined (ds : list BLEDevice) (s s' : World) :
  free_devices ds s = Some (tt, s') →
  NoDup (owned ds) ∧ ∀ l, l ∈ owned ds → is_Some (heap s !! l).
Proof.
  revert s. induction ds as [|d ds IH]; intros s.
  { intros _. split; [apply NoDup_nil_2|]. intros l Hl. by apply elem_of_nil in Hl. }
  cbn [free_devices]. unfold bind at 1.
  destruct (delete_if (name d) s) as [[[] s1]|] eqn:H1; [|done].
  unfold bind at 1.
  destruct (delete_if (address d) s1) as [[[] s2]|] eqn:H2; [|done].
  intros Hrest. apply IH in Hrest as [Hnd Hlive].
  apply delete_if_inv in H1 as [Hn Hs1]. apply delete_if_inv in H2 as [Ha Hs2].
  assert (Hrestlive : ∀ l, l ∈ owned ds →
            (l ∉ option_list (name d)) ∧ (l ∉ option_list (address d))
            ∧ is_Some (heap s !! l)).
  { intros l Hl. apply Hlive in Hl as [buf Hbuf].
    rewrite Hs2 in Hbuf. case_bool_decide; [done|].
    rewrite Hs1 in Hbuf. case_bool_decide; [done|]. eauto. }
  simpl. unfold device_ptrs. split.
  - apply NoDup_app. split; [|split; [|done]].
    + destruct (name d) as [n|], (address d) as [a|]; simpl.
      * apply NoDup_cons. split; [|apply NoDup_singleton].
        intros E%list_elem_of_singleton. subst n.
        destruct (Ha a eq_refl) as [buf Hbuf]. rewrite Hs1 in Hbuf.
        rewrite bool_decide_eq_true_2 in Hbuf; [done|]. simpl. left.
      * apply NoDup_singleton.
      * apply NoDup_singleton.
      * apply NoDup_nil_2.
    + intros l [Hl|Hl]%elem_of_app Hl'; apply Hrestlive in Hl'; tauto.
  - intros l [[Hl|Hl]%elem_of_app|Hl]%elem_of_app; [| |by apply Hrestlive].
    + destruct (name d) as [n|]; simpl in Hl; [|by apply elem_of_nil in Hl].
      apply list_elem_of_singleton in Hl as ->. by apply Hn.
    + destruct (address d) as [a|]; simpl in Hl; [|by apply elem_of_nil in Hl].
      apply list_elem_of_singleton in Hl as ->.
      destruct (Ha a eq_refl) as [buf Hbuf]. rewrite Hs1 in Hbuf.
      case_bool_decide; [done|]. eauto.
Qed.

(** [winrt_cleanup] returns exactly when the arrays of the list are live and
    distinct. *)
Lemma winrt_cleanup_defined (s s' : World) :
  winrt_cleanup s = Some (tt, s') → heap_owns s.
Proof.
  intros Hrun.
  apply winrt_cleanup_run in Hrun as (_ & _ & _ & s1 & s2 & Hh1 & Hfree & _).
  apply free_devices_defined in Hfree as [Hnd Hlive].
  split; [done|]. intros l Hl. rewrite <- Hh1. by apply Hlive.
Qed.

(** C7: [winrt_cleanup] returns exactly when the arrays of the list are
    live and distinct, and after it has returned the watcher handle is null,
    the watcher having been stopped first if there was one; the list of
    discovered devices is empty and every name and address array it pointed
    to is freed, and no other; the callback and user-data pointers are
    null; the initialized flag is false. *)
Theorem winrt_cleanup_releases (s : World) :
  (heap_owns s ↔ ∃ s', winrt_cleanup s = Some (tt, s'))
  ∧ ∀ s',
      winrt_cleanup s = Some (tt, s') →
      g_watcher (globals s') = None
      ∧ effects s' = effects s
                     ++ match g_watcher (globals s) with
                        | Some w => [WatcherStop w; WatcherRelease w]
                        | None => []
                        end ++ [UninitApartment]
      ∧ g_discovered_devices (globals s') = []
      ∧ (∀ l, l ∈ owned (g_discovered_devices (globals s)) → heap s' !! l = None)
      ∧ (∀ l, l ∉ owned (g_discovered_devices (globals s)) →
              heap s' !! l = heap s !! l)
      ∧ g_callback (globals s') = None
      ∧ g_user_data (globals s') = None
      ∧ g_initialized (globals s') = false.
Proof.
  split.
  { split; [apply winrt_cleanup_total|].
    intros [s' Hrun]. by apply (winrt_cleanup_defined s s'). }
  intros s' Hrun.
  destruct (winrt_cleanup_defined s s' Hrun) as [Hnd Hlive].
  apply winrt_cleanup_run in Hrun as (Hg & _ & He & s1 & s2 & Hh1 & Hfree & Hh2).
  rewrite Hg, He, Hh2. simpl.
  destruct (free_devices_total (g_discovered_devices (globals s)) s1 Hnd)
    as (s2' & Hfree' & Hfreed & Hkept).
  { intros l Hl. rewrite Hh1. by apply Hlive. }
  rewrite Hfree in Hfree'. simplify_eq.
  repeat split; try done. intros l Hl. rewrite Hkept, Hh1; done.
Qed.

(** ** The order of events in a successful start *)



(** ** A watcher needs an initialized library *)

Lemma step_watcher_needs_init (c : Call) (s s' : World) :
  step c s = Some (tt, s') → watcher_needs_init s → watcher_needs_init s'.
Proof.
  unfold watcher_needs_init. intros Hstep Hinv.
  destruct c as [pf| |pf|pf d n cb ud| |str|args].
  - run_m. repeat case_match; simplify_eq/=; eauto.
  - apply winrt_cleanup_run in Hstep as (Hg & _). rewrite Hg. done.
  - run_m. repeat case_match; simplify_eq/=; eauto.
  - simpl in Hstep.
    destruct (winrt_start_scan_run pf d n cb ud s) as (r & s1 & Hrun & _ & _ & Hi & Hcases).
    unfold bind in Hstep. rewrite Hrun in Hstep. unfold ret in Hstep. simplify_eq.
    destruct Hcases as [(_ & Hw & _)|[(_ & _ & Hw & _)|(_ & _ & _ & Hi' & _)]].
    + rewrite Hw. eauto.
    + by rewrite Hw.
    + done.
  - run_m. repeat case_match; simplify_eq/=; eauto.
  - run_m. repeat case_match; simplify_eq/=; eauto.
  - simpl in Hstep. destruct (deliver_run args s) as (s1 & Hrun & Hs1).
    rewrite Hrun in Hstep. simplify_eq.
    destruct Hs1 as [->|[_ [device Hrep]]]; [done|].
    apply received_report_globals in Hrep as (Hi & Hw & _).
    rewrite Hi, Hw. done.
Qed.

Lemma run_watcher_needs_init (cs : list Call) (s s' : World) :
  run cs s = Some (tt, s') → watcher_needs_init s → watcher_needs_init s'.
Proof.
  revert s. induction cs as [|c cs IH]; intros s; simpl.
  { by intros [= <-]. }
  unfold bind. destruct (step c s) as [[[] s1]|] eqn:Hstep; [|done].
  eauto using step_watcher_needs_init.
Qed.

(** What a call of [winrt_initialize] can do. *)
Lemma winrt_initialize_run (pf : Platform) (s : World) :
  ∃ r s1,
    winrt_initialize pf s = Some (r, s1)
    ∧ heap s1 = heap s
    ∧ ((g_initialized (globals s) = true ∧ r = 0 ∧ s1 = s)
       ∨ (g_initialized (globals s) = false ∧ init_apartment_throws pf = true
          ∧ r = -1 ∧ globals s1 = globals s
          ∧ effects s1 = effects s ++ [InitApartment])
       ∨ (g_initialized (globals s) = false ∧ init_apartment_throws pf = false
          ∧ r = 0 ∧ globals s1 = set_initialized true (globals s)
          ∧ effects s1 = effects s ++ [InitApartment])).
Proof.
  unfold winrt_initialize. rewrite (bind_run _ _ s (globals s) s) by reflexivity.
  destruct (g_initialized (globals s)) eqn:Hi.
  - exists 0, s. split; [done|]. split; [done|]. by left.
  - destruct (init_apartment_throws pf) eqn:Ht.
    + eexists _, _. split; [reflexivity|]. simpl. split; [done|]. right. by left.
    + eexists _, _. split; [reflexivity|]. simpl. split; [done|]. right. by right.
Qed.

(** C8: a call of [winrt_start_scan] while a watcher exists returns -1 and
    keeps the callback pointer, the user-data pointer, the filter flag, the
    list of discovered devices and the watcher handle; in every world the
    library can reach from its initial one, the whole world is unchanged by
    the call. *)
Theorem winrt_start_scan_while_scanning (pf : Platform) (durationMs nioxOnly : Z)
    (callback : DeviceFoundCallback) (userData : voidptr) (s : World) :
  g_watcher (globals s) ≠ None →
  ∃ s',
    winrt_start_scan pf durationMs nioxOnly callback userData s = Some (-1, s')
    ∧ g_callback (globals s') = g_callback (globals s)
    ∧ g_user_data (globals s') = g_user_data (globals s)
    ∧ g_niox_only (globals s') = g_niox_only (globals s)
    ∧ g_discovered_devices (globals s') = g_discovered_devices (globals s)
    ∧ g_watcher (globals s') = g_watcher (globals s)
    ∧ heap s' = heap s
    ∧ (∀ cs, run cs initial_world = Some (tt, s) → s' = s).
Proof.
  intros Hw.
  assert (Hreach : ∀ cs, run cs initial_world = Some (tt, s) →
                         g_initialized (globals s) = true).
  { intros cs Hrun.
    apply (run_watcher_needs_init cs initial_world s Hrun); [|done].
    intros Hnone. by destruct Hnone. }
  destruct (g_watcher (globals s)) as [w|] eqn:Hgw; [|done].
  unfold winrt_start_scan.
  rewrite (bind_run _ _ s (globals s) s) by reflexivity.
  destruct (winrt_initialize_run pf s)
    as (r & s1 & Hinit & Hh & [(Hi & -> & ->)|[(Hi & _ & -> & Hg & _)|(Hi & _ & -> & Hg & _)]]).
  - rewrite Hi. rewrite (bind_run _ _ s 0 s) by reflexivity. simpl.
    rewrite (bind_run _ _ s (globals s) s) by reflexivity. rewrite Hgw.
    exists s. by rewrite Hgw.
  - rewrite Hi, (bind_run _ _ s (-1) s1 Hinit). simpl.
    exists s1. rewrite Hg, Hgw. repeat split; try done.
    intros cs Hrun. apply Hreach in Hrun. congruence.
  - rewrite Hi, (bind_run _ _ s 0 s1 Hinit). simpl.
    rewrite (bind_run _ _ s1 (globals s1) s1) by reflexivity.
    rewrite Hg. simpl. rewrite Hgw.
    exists s1. rewrite Hg. simpl. rewrite Hgw. repeat split; try done.
    intros cs Hrun. apply Hreach in Hrun. congruence.
Qed.

(** ** Initializing twice *)

(** Two calls in a row need not see [init_apartment] behave alike, and then
    calling twice is not calling once. On the uninitialized library, with
    [init_apartment] throwing for the first call and not for the second, the
    first call returns -1 and leaves the flag clear; the second returns 0
    and sets it. *)
Lemma winrt_initialize_twice_differs :
  ∃ s1 s2,
    winrt_initialize no_apartment initial_world = Some (-1, s1)
    ∧ winrt_initialize sample_platform s1 = Some (0, s2)
    ∧ g_initialized (globals s1) = false
    ∧ g_initialized (globals s2) = true
    ∧ globals s2 ≠ globals s1.
Proof.
  eexists _, _. split; [vm_compute; reflexivity|].
  split; [vm_compute; reflexivity|].
  split; [reflexivity|]. split; [reflexivity|]. discriminate.
Qed.

(** C10: [winrt_initialize] on an initialized library returns 0 at once,
    without calling [init_apartment] and without changing anything; so when
    the first of two consecutive calls returns 0, the second returns 0 and
    leaves the world as the first call left it, whatever the platform would
    do. When the first call fails it returns -1 with the flag still clear,
    and the second call runs [init_apartment] again: it returns -1 with the
    same globals and heap if [init_apartment] throws again, and otherwise 0
    with the flag set. In particular the second call repeats the first
    call's return value and keeps its globals and heap whenever
    [init_apartment] behaves the second time as it did the first. *)
Theorem winrt_initialize_twice (pf1 pf2 : Platform) (s : World) :
  ∃ r1 s1 r2 s2,
    winrt_initialize pf1 s = Some (r1, s1)
    ∧ winrt_initialize pf2 s1 = Some (r2, s2)
    ∧ (g_initialized (globals s) = true → r1 = 0 ∧ s1 = s)
    ∧ (r1 = 0 → r2 = 0 ∧ s2 = s1)
    ∧ (r1 ≠ 0 →
       r1 = -1
       ∧ g_initialized (globals s1) = false
       ∧ effects s2 = effects s1 ++ [InitApartment]
       ∧ if init_apartment_throws pf2
         then r2 = -1 ∧ globals s2 = globals s1 ∧ heap s2 = heap s1
         else r2 = 0 ∧ g_initialized (globals s2) = true)
    ∧ (init_apartment_throws pf2 = init_apartment_throws pf1 →
       r2 = r1 ∧ globals s2 = globals s1 ∧ heap s2 = heap s1).
Proof.
  assert (Hdone : ∀ pf' t, g_initialized (globals t) = true →
                           winrt_initialize pf' t = Some (0, t)).
  { intros pf' t Ht.
    destruct (winrt_initialize_run pf' t)
      as (r & t1 & Hrun & _ & [(_ & -> & ->)|[(Hf & _)|(Hf & _)]]); congruence. }
  destruct (winrt_initialize_run pf1 s)
    as (r1 & s1 & Hrun & Hh & [(Hi & -> & ->)|[(Hi & Ht & -> & Hg & _)|(Hi & Ht & -> & Hg & _)]]).
  - (* already initialized *)
    exists 0, s, 0, s. rewrite Hdone by done. repeat split; auto; done.
  - (* [init_apartment] throws for the first call *)
    assert (Hi1 : g_initialized (globals s1) = false) by by rewrite Hg.
    destruct (winrt_initialize_run pf2 s1)
      as (r2 & s2 & Hrun2 & Hh2 & [(Hi2 & _)|[(_ & Ht2 & -> & Hg2 & He2)|(_ & Ht2 & -> & Hg2 & He2)]]);
      [congruence| |].
    + exists (-1), s1, (-1), s2. rewrite Ht2.
      repeat split; try done; try congruence.
    + exists (-1), s1, 0, s2. rewrite Ht2.
      repeat split; try done; try congruence. by rewrite Hg2.
  - (* [init_apartment] succeeds: the second call finds the flag set *)
    assert (Hi1 : g_initialized (globals s1) = true) by by rewrite Hg.
    exists 0, s1, 0, s1. split; [done|]. split; [by apply Hdone|].
    repeat split; auto; try done; congruence.
Qed.

(** ** Stopping a scan

    [winrt_stop_scan] is what the client calls to end a scan early and what
    the detached timer thread of a scan calls when its sleep is over. *)

Lemma winrt_stop_scan_run (s : World) :
  ∃ s',
    winrt_stop_scan s = Some (tt, s')
    ∧ g_watcher (globals s') = None
    ∧ heap s' = heap s
    ∧ g_discovered_devices (globals s') = g_discovered_devices (globals s)
    ∧ effects s' = effects s
                   ++ match g_watcher (globals s) with
                      | Some w => [WatcherStop w; WatcherRelease w]
                      | None => []
                      end.
Proof.
  unfold winrt_stop_scan. rewrite (bind_run _ _ s (globals s) s) by reflexivity.
  destruct (g_watcher (globals s)) as [w|] eqn:Hw.
  - eexists. split; [reflexivity|]. simpl. by rewrite <- app_assoc.
  - exists s. by rewrite Hw, app_nil_r.
Qed.

(** Without a watcher an advertisement changes nothing. *)
Lemma deliver_without_watcher (args : ReceivedEventArgs) (s : World) :
  g_watcher (globals s) = None → deliver args s = Some (tt, s).
Proof.
  intros Hw. unfold deliver.
  rewrite (bind_run _ _ s (globals s) s) by reflexivity. by rewrite Hw.
Qed.

Section stopped_scan.

Variable w : watcher.

(** A scan that is over stays over: no later call makes its watcher the
    current one again. *)
Lemma step_scan_over (c : Call) (s s' : World) :
  step c s = Some (tt, s') → scan_over w s → scan_over w s'.
Proof.
  unfold scan_over. intros Hstep [Hlt Hne].
  destruct c as [pf| |pf|pf d n cb ud| |str|args].
  - simpl in Hstep.
    destruct (winrt_initialize_run pf s) as (r & s1 & Hrun & _ & Hcases).
    rewrite (bind_run _ _ s r s1 Hrun) in Hstep. unfold ret in Hstep. simplify_eq.
    destruct Hcases as [(_ & _ & ->)|[(_ & _ & _ & Hg & _)|(_ & _ & _ & Hg & _)]];
      [done| |]; rewrite Hg; split; try done.
    all: revert Hrun; run_m; repeat case_match; intros; simplify_eq/=; done.
  - apply winrt_cleanup_run in Hstep as (Hg & Hw & _). rewrite Hg, Hw. done.
  - run_m. repeat case_match; simplify_eq/=; done.
  - simpl in Hstep.
    destruct (winrt_start_scan_run pf d n cb ud s) as (r & s1 & Hrun & _ & Hle & _ & Hcases).
    rewrite (bind_run _ _ s r s1 Hrun) in Hstep. unfold ret in Hstep. simplify_eq.
    destruct Hcases
      as [(_ & Hw & _ & _ & Hnw & _)|[(_ & _ & Hw & _)|(_ & _ & Hw & _ & Hnw & _)]].
    + rewrite Hw, Hnw. done.
    + rewrite Hw. split; [lia|done].
    + rewrite Hw, Hnw. split; [lia|]. intros [= <-]. lia.
  - destruct (winrt_stop_scan_run s) as (s1 & Hrun & Hw & _).
    simpl in Hstep. rewrite Hrun in Hstep. simplify_eq.
    rewrite Hw. split; [|done].
    revert Hrun. run_m. repeat case_match; intros; simplify_eq/=; done.
  - run_m. repeat case_match; simplify_eq/=; done.
  - simpl in Hstep. destruct (deliver_run args s) as (s1 & Hrun & Hs1).
    rewrite Hrun in Hstep. simplify_eq.
    destruct Hs1 as [->|[_ [device Hrep]]]; [done|].
    apply received_report_globals in Hrep as (_ & Hw & _ & _ & _ & Hnw).
    rewrite Hw, Hnw. done.
Qed.

Lemma run_scan_over (cs : list Call) (s s' : World) :
  run cs s = Some (tt, s') → scan_over w s → scan_over w s'.
Proof.
  revert s. induction cs as [|c cs IH]; intros s; simpl.
  { by intros [= <-]. }
  unfold bind. destruct (step c s) as [[[] s1]|] eqn:Hstep; [|done].
  eauto using step_scan_over.
Qed.

End stopped_scan.

(** ** The library owns the arrays of its list *)

Lemma heap_owns_frame (s s' : World) :
  heap s' = heap s →
  g_discovered_devices (globals s') = g_discovered_devices (globals s)
  ∨ g_discovered_devices (globals s') = [] →
  heap_owns s → heap_owns s'.
Proof.
  unfold heap_owns. intros Hh [Hd|Hd] [Hnd Hlive]; rewrite Hh, Hd; [done|].
  simpl. split; [apply NoDup_nil_2|]. intros l Hl. by apply elem_of_nil in Hl.
Qed.

Lemma winrt_check_bluetooth_state_run (pf : Platform) (s : World) :
  ∃ r s',
    winrt_check_bluetooth_state pf s = Some (r, s')
    ∧ heap s' = heap s
    ∧ g_discovered_devices (globals s') = g_discovered_devices (globals s).
Proof.
  unfold winrt_check_bluetooth_state.
  rewrite (bind_run _ _ s (globals s) s) by reflexivity.
  destruct (winrt_initialize_run pf s)
    as (r & s1 & Hinit & Hh & [(Hi & -> & ->)|[(Hi & _ & -> & Hg & _)|(Hi & _ & -> & Hg & _)]]).
  - rewrite Hi, (bind_run _ _ s 0 s) by reflexivity. simpl.
    destruct (adapter pf) as [| | |[]]; eexists _, _; split; reflexivity || done.
  - rewrite Hi, (bind_run _ _ s (-1) s1 Hinit). simpl.
    eexists _, _. split; [reflexivity|]. by rewrite Hg.
  - rewrite Hi, (bind_run _ _ s 0 s1 Hinit). simpl.
    destruct (adapter pf) as [| | |[]]; eexists _, _; (split; [reflexivity|]);
      by rewrite Hg.
Qed.

(** A call that respects the ownership runs without undefined behaviour and
    keeps the arrays of the list live and distinct. *)
Lemma step_heap_owns (c : Call) (s : World) :
  heap_owns s → keeps_owned s c →
  ∃ s', step c s = Some (tt, s') ∧ heap_owns s'.
Proof.
  intros Howns Hkeep.
  destruct c as [pf| |pf|pf d n cb ud| |str|args]; simpl.
  - destruct (winrt_initialize_run pf s) as (r & s1 & Hrun & Hh & Hcases).
    rewrite (bind_run _ _ s r s1 Hrun). exists s1. split; [done|].
    apply (heap_owns_frame s); [done| |done]. left.
    destruct Hcases as [(_ & _ & ->)|[(_ & _ & _ & -> & _)|(_ & _ & _ & -> & _)]]; done.
  - destruct (winrt_cleanup_total s Howns) as [s' Hrun]. exists s'. split; [done|].
    apply winrt_cleanup_run in Hrun as (Hg & _). unfold heap_owns. rewrite Hg. simpl.
    split; [apply NoDup_nil_2|]. intros l Hl. by apply elem_of_nil in Hl.
  - destruct (winrt_check_bluetooth_state_run pf s) as (r & s1 & Hrun & Hh & Hd).
    rewrite (bind_run _ _ s r s1 Hrun). exists s1. split; [done|].
    apply (heap_owns_frame s); auto.
  - destruct (winrt_start_scan_run pf d n cb ud s) as (r & s1 & Hrun & Hh & _ & _ & Hcases).
    rewrite (bind_run _ _ s r s1 Hrun). exists s1. split; [done|].
    apply (heap_owns_frame s); [done| |done].
    destruct Hcases as [(_ & _ & Hd & _)|[(_ & _ & _ & _ & Hd)|(_ & _ & _ & _ & _ & Hd)]];
      auto.
  - unfold winrt_stop_scan. rewrite (bind_run _ _ s (globals s) s) by reflexivity.
    destruct (g_watcher (globals s)) as [w|]; [|by exists s].
    eexists. split; [reflexivity|]. apply (heap_owns_frame s); auto.
  - destruct str as [l|]; [|by exists s]. destruct Hkeep as [Hl [buf Hbuf]].
    unfold winrt_free_string, delete_if, delete_array. rewrite Hbuf.
    eexists. split; [reflexivity|]. destruct Howns as [Hnd Hlive].
    split; [done|]. simpl. intros l' Hl'.
    rewrite lookup_delete_ne; [by apply Hlive|]. by intros ->.
  - destruct (deliver_run args s) as (s' & Hrun & Hs'). exists s'. split; [done|].
    destruct Hs' as [->|[_ [device Hrep]]]; [done|].
    destruct Howns as [Hnd Hlive].
    destruct Hrep as (_ & Hg & _ & _ & _ & (a & Ha & Hafresh & Halive & _) & Hname & Hnd' & Hkept).
    assert (Hnew : ∀ l, l ∈ device_ptrs device →
                        heap s !! l = None ∧ is_Some (heap s' !! l)).
    { unfold device_ptrs. rewrite Ha. intros l [Hl|Hl]%elem_of_app.
      - destruct (name device) as [n|]; simpl in Hl; [|by apply elem_of_nil in Hl].
        apply list_elem_of_singleton in Hl as ->.
        destruct Hname as (_ & Hfresh & ->). eauto.
      - apply list_elem_of_singleton in Hl as ->. done. }
    unfold heap_owns. rewrite Hg. simpl. unfold owned.
    rewrite flat_map_app. simpl. rewrite app_nil_r. split.
    + apply NoDup_app. split; [done|]. split; [|done].
      intros l Hl Hl'. apply Hlive in Hl as [buf Hbuf].
      apply Hnew in Hl' as [Hnone _]. congruence.
    + intros l [Hl|Hl]%elem_of_app; [|by apply Hnew].
      rewrite Hkept; [by apply Hlive|].
      intros Hl'. apply Hlive in Hl as [buf Hbuf].
      apply Hnew in Hl' as [Hnone _]. congruence.
Qed.

(** A polite client never drives the library into undefined behaviour. *)
Lemma run_heap_owns (cs : list Call) (s : World) :
  heap_owns s → polite cs s →
  ∃ s', run cs s = Some (tt, s') ∧ heap_owns s'.
Proof.
  revert s. induction cs as [|c cs IH]; intros s Howns Hpolite.
  { by exists s. }
  destruct Hpolite as [Hkeep Hrest].
  destruct (step_heap_owns c s Howns Hkeep) as (s1 & Hstep & Howns1).
  destruct (IH s1 Howns1 (Hrest s1 Hstep)) as (s' & Hrun & Howns').
  exists s'. split; [|done]. simpl. by rewrite (bind_run _ _ s tt s1 Hstep).
Qed.

Lemma initial_world_owns : heap_owns initial_world.
Proof.
  split; [apply NoDup_nil_2|]. intros l Hl. by apply elem_of_nil in Hl.
Qed.

(** From the initial world a polite client gets a defined run. *)
Lemma polite_run_defined (cs : list Call) :
  polite cs initial_world →
  ∃ s, run cs initial_world = Some (tt, s) ∧ heap_owns s.
Proof. apply run_heap_owns, initial_world_owns. Qed.

(** ** The devices of the list *)

Lemma step_devices_complete (c : Call) (s s' : World) :
  step c s = Some (tt, s') → devices_complete s → devices_complete s'.
Proof.
  unfold devices_complete. intros Hstep Hinv.
  destruct c as [pf| |pf|pf d n cb ud| |str|args]; simpl in Hstep.
  - destruct (winrt_initialize_run pf s) as (r & s1 & Hrun & _ & Hcases).
    rewrite (bind_run _ _ s r s1 Hrun) in Hstep. unfold ret in Hstep. simplify_eq.
    destruct Hcases as [(_ & _ & ->)|[(_ & _ & _ & -> & _)|(_ & _ & _ & -> & _)]]; done.
  - apply winrt_cleanup_run in Hstep as (-> & _). by apply Forall_nil.
  - destruct (winrt_check_bluetooth_state_run pf s) as (r & s1 & Hrun & _ & Hd).
    rewrite (bind_run _ _ s r s1 Hrun) in Hstep. unfold ret in Hstep. simplify_eq.
    by rewrite Hd.
  - destruct (winrt_start_scan_run pf d n cb ud s) as (r & s1 & Hrun & _ & _ & _ & Hcases).
    rewrite (bind_run _ _ s r s1 Hrun) in Hstep. unfold ret in Hstep. simplify_eq.
    destruct Hcases as [(_ & _ & -> & _)|[(_ & _ & _ & _ & ->)|(_ & _ & _ & _ & _ & ->)]];
      done || by apply Forall_nil.
  - destruct (winrt_stop_scan_run s) as (s1 & Hrun & _ & _ & Hd & _).
    rewrite Hrun in Hstep. simplify_eq. by rewrite Hd.
  - destruct str as [l|]; run_m; repeat case_match; by simplify_eq/=.
  - destruct (deliver_run args s) as (s1 & Hrun & Hs1).
    rewrite Hrun in Hstep. simplify_eq.
    destruct Hs1 as [->|[_ [device Hrep]]]; [done|].
    destruct Hrep as ([-> _] & _ & _ & _ & Hhas & (a & Ha & _) & _).
    apply Forall_app. split; [done|]. apply Forall_singleton.
    split; [done|]. by rewrite Ha.
Qed.

(** In every world the library reaches, each device of the list has
    [hasRssi] equal to 1 and a non-null address. *)
Lemma run_devices_complete (cs : list Call) (s : World) :
  run cs initial_world = Some (tt, s) → devices_complete s.
Proof.
  assert (Hgen : ∀ t, run cs t = Some (tt, s) → devices_complete t → devices_complete s).
  { induction cs as [|c cs IH]; intros t; simpl.
    - by intros [= <-].
    - unfold bind. destruct (step c t) as [[[] t1]|] eqn:Hstep; [|done].
      eauto using step_devices_complete. }
  intros Hrun. apply (Hgen initial_world Hrun). by apply Forall_nil.
Qed.

(** ** The sample session *)

Example niox_scan_found_globals :
  globals niox_scan_found
  = {| g_initialized := true; g_watcher := Some 1%positive;
       g_discovered_devices := [found_device];
       g_callback := Some 7%positive; g_user_data := Some 99;
       g_niox_only := true |}.
Proof. reflexivity. Qed.

Example niox_scan_found_name :
  name_of niox_scan_found found_device
  = Some (list_ascii_of_string "NIOX PRO 0042" ++ [NUL]).
Proof. reflexivity. Qed.

Example niox_scan_found_address :
  heap niox_scan_found !! 2%positive
  = Some (list_ascii_of_string "01:23:45:67:89:AB" ++ [NUL]).
Proof. reflexivity. Qed.



Lemma reported_name_from_local_name_witness :
  on_received (sample_args accented_name) niox_scan = Some (tt, niox_scan_accented)
  ∧ reported niox_scan niox_scan_accented found_device
  ∧ (∃ text,
       up_to_zero accented_name text
       ∧ (∀ text', up_to_zero accented_name text' → text' = text)
       ∧ name_of niox_scan_accented found_device
         = if bool_decide (accented_name = []) then None
           else Some (WideCharToMultiByte text ++ [NUL]))
  ∧ (accented_name ≠ [] →
     0 ∉ accented_name →
     name_of niox_scan_accented found_device
     = Some (WideCharToMultiByte accented_name ++ [NUL]))
  ∧ ∀ args2,
      LocalName (Advertisement args2) = accented_name →
      ∃ s2 device2,
        on_received args2 niox_scan = Some (tt, s2)
        ∧ reported niox_scan s2 device2
        ∧ name_of s2 device2 = name_of niox_scan_accented found_device.
Proof.
  assert (H1 : on_received (sample_args accented_name) niox_scan
               = Some (tt, niox_scan_accented)) by (vm_compute; reflexivity).
  assert (H2 : reported niox_scan niox_scan_accented found_device)
    by (split; vm_compute; reflexivity).
  split; [exact H1|]. split; [exact H2|].
  exact (reported_name_from_local_name (sample_args accented_name)
           niox_scan niox_scan_accented found_device H1 H2).
Defined.

(** The name the callback reads there: the nine ASCII characters as they
    are, U+00E9 as the two bytes C3 A9, and the terminator. *)
Example accented_name_reported :
  name_of niox_scan_accented found_device
  = Some (list_ascii_of_string "NIOX PRO "
          ++ [char_of_Z 0xC3; char_of_Z 0xA9; NUL]).
Proof. vm_compute. reflexivity. Qed.

Lemma reported_device_invariant_witness :
  on_received (sample_args (wide "NIOX PRO 0042")) niox_scan
  = Some (tt, niox_scan_found)
  ∧ (g_discovered_devices (globals niox_scan_found)
     = g_discovered_devices (globals niox_scan) ++ [found_device]
     ∨ (∃ cb userData,
          effects niox_scan_found
          = effects niox_scan ++ [Callback cb found_device userData]))
  ∧ hasRssi found_device = 1
  ∧ rssi found_device = -60
  ∧ (∃ a buf, address found_device = Some a
              ∧ heap niox_scan !! a = None
              ∧ heap niox_scan_found !! a = Some buf
              ∧ format_bluetooth_address_buf 0x0123456789AB = Some buf)
  ∧ (name found_device = None ↔ wide "NIOX PRO 0042" = []).
Proof.
  assert (H1 : on_received (sample_args (wide "NIOX PRO 0042")) niox_scan
               = Some (tt, niox_scan_found)) by (vm_compute; reflexivity).
  assert (H2 : g_discovered_devices (globals niox_scan_found)
               = g_discovered_devices (globals niox_scan) ++ [found_device]
               ∨ (∃ cb userData,
                    effects niox_scan_found
                    = effects niox_scan ++ [Callback cb found_device userData]))
    by (left; vm_compute; reflexivity).
  split; [exact H1|]. split; [exact H2|].
  exact (reported_device_invariant (sample_args (wide "NIOX PRO 0042"))
           niox_scan niox_scan_found found_device H1 H2).
Defined.


Lemma winrt_cleanup_releases_witness :
  winrt_cleanup niox_scan_found = Some (tt, niox_scan_cleaned)
  ∧ g_watcher (globals niox_scan_cleaned) = None
  ∧ effects niox_scan_cleaned
    = effects niox_scan_found
      ++ match g_watcher (globals niox_scan_found) with
         | Some w => [WatcherStop w; WatcherRelease w]
         | None => []
         end ++ [UninitApartment]
  ∧ g_discovered_devices (globals niox_scan_cleaned) = []
  ∧ (∀ l, l ∈ owned (g_discovered_devices (globals niox_scan_found)) →
          heap niox_scan_cleaned !! l = None)
  ∧ (∀ l, l ∉ owned (g_discovered_devices (globals niox_scan_found)) →
          heap niox_scan_cleaned !! l = heap niox_scan_found !! l)
  ∧ g_callback (globals niox_scan_cleaned) = None
  ∧ g_user_data (globals niox_scan_cleaned) = None
  ∧ g_initialized (globals niox_scan_cleaned) = false.
Proof.
  assert (H1 : winrt_cleanup niox_scan_found = Some (tt, niox_scan_cleaned))
    by (vm_compute; reflexivity).
  split; [exact H1|].
  exact (proj2 (winrt_cleanup_releases niox_scan_found) niox_scan_cleaned H1).
Defined.

Lemma winrt_start_scan_while_scanning_witness :
  g_watcher (globals niox_scan_found) ≠ None
  ∧ ∃ s',
      winrt_start_scan sample_platform 500 0 None None niox_scan_found
      = Some (-1, s')
      ∧ g_callback (globals s') = g_callback (globals niox_scan_found)
      ∧ g_user_data (globals s') = g_user_data (globals niox_scan_found)
      ∧ g_niox_only (globals s') = g_niox_only (globals niox_scan_found)
      ∧ g_discovered_devices (globals s')
        = g_discovered_devices (globals niox_scan_found)
      ∧ g_watcher (globals s') = g_watcher (globals niox_scan_found)
      ∧ heap s' = heap niox_scan_found
      ∧ (∀ cs, run cs initial_world = Some (tt, niox_scan_found) →
               s' = niox_scan_found).
Proof.
  assert (H1 : g_watcher (globals niox_scan_found) ≠ None)
    by (vm_compute; discriminate).
  split; [exact H1|].
  exact (winrt_start_scan_while_scanning sample_platform 500 0 None None
           niox_scan_found H1).
Defined.

(** The sample session is a run of the library from its initial world. *)
Example niox_scan_found_reached :
  run [StartScanCall sample_platform 1000 1 (Some 7%positive) (Some 99);
       ReceivedEvent (sample_args (wide "Thermometer"));
       ReceivedEvent (sample_args (wide "NIOX PRO 0042"))] initial_world
  = Some (tt, niox_scan_found).
Proof. vm_compute. reflexivity. Qed.

(** After cleanup nothing is left of it but the filter flag and the record
    of what was done. *)
Example niox_scan_cleaned_state :
  (globals niox_scan_cleaned, heap niox_scan_cleaned)
  = ({| g_initialized := false; g_watcher := None;
        g_discovered_devices := []; g_callback := None;
        g_user_data := None; g_niox_only := true |}, ∅).
Proof. vm_compute. reflexivity. Qed.

(** * Further properties *)

(** ** The converted name as a C string *)

Lemma utf8_encode_no_NUL (cp : Z) :
  0 < cp → Forall (λ b, Z_of_char b ≠ 0) (utf8_encode cp).
Proof.
  intros Hcp.
  assert (Htop : ∀ m x, Z.testbit m 7 = true → Z_of_char (char_of_Z (Z.lor m x)) ≠ 0).
  { intros m x Hm. pose proof (top_bit_set m x Hm). lia. }
  unfold utf8_encode. repeat case_match; repeat constructor; try by apply Htop.
  rewrite Z_of_char_of_Z, Z.mod_small; lia.
Qed.

Lemma WideCharToMultiByte_no_NUL (w : list Z) :
  Forall (λ u, 0 < u) w → Forall (λ b, Z_of_char b ≠ 0) (WideCharToMultiByte w).
Proof.
  assert (Hfffd : Forall (λ b, Z_of_char b ≠ 0) (utf8_encode 0xFFFD))
    by (by apply utf8_encode_no_NUL).
  remember (length w) as n eqn:Hn. revert w Hn.
  induction (lt_wf n) as [n _ IH]. intros w -> Hw.
  destruct Hw as [|u rest Hu Hrest]; [constructor|].
  cbn [WideCharToMultiByte].
  assert (Hr : Forall (λ b, Z_of_char b ≠ 0) (WideCharToMultiByte rest)).
  { apply (IH (length rest)); simpl; [lia|done|done]. }
  destruct (is_high_surrogate u) eqn:Hhi.
  - destruct Hrest as [|lo rest' Hlo Hrest']; [done|].
    destruct (is_low_surrogate lo) eqn:Hl.
    + apply Forall_app. split.
      * apply utf8_encode_no_NUL. unfold is_high_surrogate, is_low_surrogate in *. lia.
      * apply (IH (length rest')); simpl; [lia|done|done].
    + by apply Forall_app.
  - destruct (is_low_surrogate u); apply Forall_app; split; try done.
    by apply utf8_encode_no_NUL.
Qed.

Lemma wcs_positive (h : hstring) :
  Forall (λ u, 0 ≤ u) h → Forall (λ u, 0 < u) (wcs h).
Proof.
  induction 1 as [|u rest Hu _ IH]; [constructor|].
  simpl. destruct (Z.eqb_spec u 0); constructor; [lia|done].
Qed.

Lemma cstr_terminated (text : list ascii) :
  Forall (λ b, Z_of_char b ≠ 0) text → cstr (text ++ [NUL]) = text.
Proof.
  induction 1 as [|b text Hb _ IH]; [done|].
  simpl. destruct (Ascii.eqb_spec b NUL) as [->|_]; [done|]. by rewrite IH.
Qed.

(** X1: [hstring_to_cstring] returns a fresh array whose C string is the
    whole UTF-8 conversion of the wide string up to its first zero unit:
    the conversion holds no NUL byte, so the terminator the function writes
    is the only one and [strlen] of the result is the converted size. *)
Theorem hstring_to_cstring_whole (hstr : hstring) (s : World) :
  Forall (λ u, 0 ≤ u) hstr →
  ∃ l s' buf,
    hstring_to_cstring hstr s = Some (l, s')
    ∧ heap s !! l = None
    ∧ heap s' !! l = Some buf
    ∧ cstr buf = WideCharToMultiByte (wcs hstr)
    ∧ length buf = S (strlen buf)
    ∧ (∀ l', l' ≠ l → heap s' !! l' = heap s !! l').
Proof.
  intros Hunits.
  pose proof (cstr_terminated _ (WideCharToMultiByte_no_NUL _ (wcs_positive _ Hunits)))
    as Hstr.
  eexists _, _, _. split; [reflexivity|]. simpl.
  split; [apply fresh_not_live|]. split; [apply lookup_insert_eq|].
  unfold strlen, wstring_to_cstring_buf. rewrite Hstr.
  split; [done|]. split; [rewrite length_app; simpl; lia|].
  intros l' Hl'. by rewrite lookup_insert_ne.
Qed.

(** X2: a name of ASCII characters comes through the conversion unchanged:
    the array holds exactly those characters and the terminator. *)
Theorem hstring_to_cstring_ascii (text : list ascii) :
  Forall (λ c, 0 < Z_of_char c < 128) text →
  hstring_to_cstring_buf (map Z_of_char text) = text ++ [NUL].
Proof.
  intros Htext. unfold hstring_to_cstring_buf, wstring_to_cstring_buf. f_equal.
  induction Htext as [|c text Hc _ IH]; [done|].
  cbn [map wcs]. destruct (Z.eqb_spec (Z_of_char c) 0); [lia|].
  rewrite WideCharToMultiByte_ascii by lia. rewrite IH. f_equal.
  unfold char_of_Z, Z_of_char in *. rewrite Z.mod_small by lia.
  by rewrite N2Z.id, ascii_N_embedding.
Qed.

(** ** Addresses as texts *)

(** X3: two addresses get the same text exactly when they agree on their
    low 48 bits: the text identifies the six address bytes. *)
Theorem format_bluetooth_address_buf_inj (a b : Z) :
  format_bluetooth_address_buf a = format_bluetooth_address_buf b
  ↔ a `mod` 2 ^ 48 = b `mod` 2 ^ 48.
Proof.
  split.
  - intros Heq.
    destruct (format_bluetooth_address_buf_text a) as (ta & Ha & _ & _ & Pa).
    destruct (format_bluetooth_address_buf_text b) as (tb & Hb & _ & _ & Pb).
    rewrite Ha, Hb in Heq. injection Heq as Heq. apply app_inv_tail in Heq.
    rewrite Heq, Pb in Pa. by injection Pa.
  - intros Heq.
    rewrite <- (format_bluetooth_address_buf_low48 a),
            <- (format_bluetooth_address_buf_low48 b).
    by rewrite Heq.
Qed.

(** ** The state of the radio *)

(** X4: [winrt_check_bluetooth_state] answers with a code from 0 to 3; the
    code is 0 exactly when the library is or can be initialized and the
    radio is on, and 3 whenever initialization fails. It initializes the
    library on the way, calling [init_apartment] only when the library is
    not initialized, and touches neither the scan variables nor the heap. *)
Theorem winrt_check_bluetooth_state_codes (pf : Platform) (s : World) :
  ∃ r s',
    winrt_check_bluetooth_state pf s = Some (r, s')
    ∧ 0 ≤ r ≤ 3
    ∧ (r = 0 ↔ can_initialize pf s = true ∧ adapter pf = RadioIs RadioOn)
    ∧ (r = 1 ↔ can_initialize pf s = true
               ∧ (adapter pf = RadioIs RadioOff ∨ adapter pf = RadioIs RadioDisabled))
    ∧ (r = 2 ↔ can_initialize pf s = true
               ∧ (adapter pf = NoAdapter ∨ adapter pf = NoRadio))
    ∧ g_initialized (globals s') = can_initialize pf s
    ∧ effects s' = effects s
                   ++ (if g_initialized (globals s) then [] else [InitApartment])
    ∧ g_watcher (globals s') = g_watcher (globals s)
    ∧ g_discovered_devices (globals s') = g_discovered_devices (globals s)
    ∧ g_callback (globals s') = g_callback (globals s)
    ∧ g_user_data (globals s') = g_user_data (globals s)
    ∧ g_niox_only (globals s') = g_niox_only (globals s)
    ∧ heap s' = heap s.
Proof.
  unfold winrt_check_bluetooth_state, can_initialize.
  rewrite (bind_run _ _ s (globals s) s) by reflexivity.
  destruct (winrt_initialize_run pf s)
    as (r & s1 & Hinit & Hh
        & [(Hi & -> & ->)|[(Hi & Ht & -> & Hg & He)|(Hi & Ht & -> & Hg & He)]]).
  - rewrite Hi, (bind_run _ _ s 0 s) by reflexivity. simpl.
    destruct (adapter pf) as [| | |[]]; eexists _, _; (split; [reflexivity|]);
      rewrite ?Hi, ?app_nil_r; repeat split; try done; try lia;
      intros; intuition (try discriminate; try lia).
  - rewrite Hi, (bind_run _ _ s (-1) s1 Hinit). simpl.
    eexists _, _. split; [reflexivity|]. rewrite Hg, Hi, Ht, He, Hh. simpl.
    repeat split; try done; try lia; intros; intuition (try discriminate; try lia).
  - rewrite Hi, (bind_run _ _ s 0 s1 Hinit). simpl.
    destruct (adapter pf) as [| | |[]]; eexists _, _; (split; [reflexivity|]);
      rewrite Hg, ?Hi, ?Ht, He, Hh; simpl; repeat split; try done; try lia;
      intros; intuition (try discriminate; try lia).
Qed.

(** ** Stopping keeps the results *)

(** X5: [winrt_stop_scan] always returns and leaves no watcher; it keeps the
    list of discovered devices, the arrays of their names and addresses,
    the callback, the user data and the filter flag; and a second call
    changes nothing at all. *)
Theorem winrt_stop_scan_keeps_results (s : World) :
  ∃ s1,
    winrt_stop_scan s = Some (tt, s1)
    ∧ g_watcher (globals s1) = None
    ∧ g_discovered_devices (globals s1) = g_discovered_devices (globals s)
    ∧ heap s1 = heap s
    ∧ g_callback (globals s1) = g_callback (globals s)
    ∧ g_user_data (globals s1) = g_user_data (globals s)
    ∧ g_niox_only (globals s1) = g_niox_only (globals s)
    ∧ g_initialized (globals s1) = g_initialized (globals s)
    ∧ winrt_stop_scan s1 = Some (tt, s1).
Proof.
  unfold winrt_stop_scan. rewrite (bind_run _ _ s (globals s) s) by reflexivity.
  destruct (g_watcher (globals s)) as [w|] eqn:Hw.
  - eexists. split; [reflexivity|]. simpl. repeat split; done.
  - exists s. rewrite (bind_run _ _ s (globals s) s) by reflexivity.
    rewrite Hw. repeat split; done.
Qed.

(** ** Freeing a string *)

(** X6: [winrt_free_string] does nothing for a null pointer; for a live
    array it frees that array and no other and leaves the globals alone;
    freeing the same array again is undefined. *)
Theorem winrt_free_string_once (l : loc) (s : World) :
  is_Some (heap s !! l) →
  winrt_free_string None s = Some (tt, s)
  ∧ ∃ s1,
      winrt_free_string (Some l) s = Some (tt, s1)
      ∧ heap s1 !! l = None
      ∧ (∀ l', l' ≠ l → heap s1 !! l' = heap s !! l')
      ∧ globals s1 = globals s
      ∧ effects s1 = effects s
      ∧ winrt_free_string (Some l) s1 = None.
Proof.
  intros [buf Hbuf]. split; [done|].
  unfold winrt_free_string, delete_if, delete_array. rewrite Hbuf.
  eexists. split; [reflexivity|]. simpl. rewrite lookup_delete_eq.
  repeat split; try done. intros l' Hl'. by rewrite lookup_delete_ne.
Qed.

(** A list that has lost an array does not get it back: as long as no
    [winrt_start_scan] clears the list, the arrays it points to are not all
    live and distinct again: the freed array stays dead, and were a new array
    allocated at its address, the list would point to that array twice. *)
Lemma step_keeps_disowned (c : Call) (s s' : World) :
  is_start_scan c = false →
  step c s = Some (tt, s') →
  heap_owns s' → heap_owns s.
Proof.
  intros Hc Hstep Howns.
  destruct c as [pf| |pf|pf d n cb ud| |str|args]; simpl in Hstep; [| | |done| | |].
  - destruct (winrt_initialize_run pf s) as (r & s1 & Hrun & Hh & Hcases).
    rewrite (bind_run _ _ s r s1 Hrun) in Hstep. injection Hstep as <-.
    apply (heap_owns_frame s1); [done| |done]. left.
    destruct Hcases as [(_ & _ & ->)|[(_ & _ & _ & -> & _)|(_ & _ & _ & -> & _)]]; done.
  - by apply winrt_cleanup_defined in Hstep.
  - destruct (winrt_check_bluetooth_state_run pf s) as (r & s1 & Hrun & Hh & Hd).
    rewrite (bind_run _ _ s r s1 Hrun) in Hstep. injection Hstep as <-.
    apply (heap_owns_frame s1); auto.
  - destruct (winrt_stop_scan_run s) as (s1 & Hrun & _ & Hh & Hd & _).
    rewrite Hrun in Hstep. injection Hstep as <-.
    apply (heap_owns_frame s1); auto.
  - destruct str as [l|]; simpl in Hstep; [|by injection Hstep as <-].
    unfold delete_array in Hstep. destruct (heap s !! l) as [buf|] eqn:Hbuf; [|done].
    injection Hstep as <-. destruct Howns as [Hnd Hlive]. split; [done|].
    intros l' Hl'. destruct (Hlive l' Hl') as [buf' Hbuf']. simpl in Hbuf'.
    apply lookup_delete_Some in Hbuf' as [_ Hbuf']. eauto.
  - destruct (deliver_run args s) as (s1 & Hrun & Hs1).
    rewrite Hrun in Hstep. injection Hstep as <-.
    destruct Hs1 as [->|[_ [device Hrep]]]; [done|].
    destruct Howns as [Hnd Hlive].
    destruct Hrep as (_ & Hg & _ & _ & _ & (a & Ha & Hafresh & _) & Hname & _ & Hkept).
    assert (Hnew : ∀ l, l ∈ device_ptrs device → heap s !! l = None).
    { unfold device_ptrs. rewrite Ha. intros l [Hl|Hl]%elem_of_app.
      - destruct (name device) as [n|]; simpl in Hl; [|by apply elem_of_nil in Hl].
        apply list_elem_of_singleton in Hl as ->. by destruct Hname as (_ & Hfresh & _).
      - by apply list_elem_of_singleton in Hl as ->. }
    rewrite Hg in Hnd, Hlive. simpl in Hnd, Hlive. unfold owned in Hnd, Hlive.
    rewrite flat_map_app in Hnd, Hlive. simpl in Hnd, Hlive.
    rewrite app_nil_r in Hnd, Hlive.
    apply NoDup_app in Hnd as (Hnd & Hdisj & _).
    split; [done|]. intros l Hl.
    rewrite <- Hkept; [|by apply Hdisj].
    apply Hlive, elem_of_app. by left.
Qed.

Lemma run_disowned_cleanup (cs : list Call) (s : World) :
  Forall (λ c, is_start_scan c = false) cs →
  ¬ heap_owns s →
  run (cs ++ [CleanupCall]) s = None.
Proof.
  revert s. induction cs as [|c cs IH]; intros s Hcs Hdis; simpl.
  - unfold bind. destruct (winrt_cleanup s) as [[[] s']|] eqn:Hrun; [|done].
    by apply winrt_cleanup_defined in Hrun.
  - apply Forall_cons in Hcs as [Hc Hcs].
    unfold bind at 1. destruct (step c s) as [[[] s']|] eqn:Hstep; [|done].
    apply IH; [done|]. intros Howns. apply Hdis.
    by apply (step_keeps_disowned c s s').
Qed.

(** X7: the arrays of the list of discovered devices belong to the library.
    Once the client has freed one of them with [winrt_free_string], a
    [winrt_cleanup] called right away, or after any calls and advertisements
    with no [winrt_start_scan] among them, does not return: what the client
    runs into is undefined, at the latest when [winrt_cleanup] deletes the
    array a second time. *)
Theorem free_then_cleanup_undefined (l : loc) (s : World) (cs : list Call) :
  heap_owns s →
  l ∈ owned (g_discovered_devices (globals s)) →
  Forall (λ c, is_start_scan c = false) cs →
  ∃ s1,
    winrt_free_string (Some l) s = Some (tt, s1)
    ∧ winrt_cleanup s1 = None
    ∧ run (cs ++ [CleanupCall]) s1 = None.
Proof.
  intros [Hnd Hlive] Hl Hcs. destruct (Hlive l Hl) as [buf Hbuf].
  unfold winrt_free_string, delete_if, delete_array. rewrite Hbuf.
  eexists. split; [reflexivity|].
  match goal with |- winrt_cleanup ?t = None ∧ _ => set (s1 := t) end.
  assert (Hdis : ¬ heap_owns s1).
  { intros [_ Hlive1]. destruct (Hlive1 l Hl) as [buf1 Hbuf1].
    subst s1. simpl in Hbuf1. by rewrite lookup_delete_eq in Hbuf1. }
  split.
  - destruct (winrt_cleanup s1) as [[[] s2]|] eqn:Hrun; [|done].
    by apply winrt_cleanup_defined in Hrun.
  - by apply run_disowned_cleanup.
Qed.

(** ** What the handler leaves behind *)

(** X8: an advertisement that the name filter rejects leaves the world
    exactly as it was: nothing is appended, no callback runs, and the array
    made for its name is freed again. *)
Theorem filtered_advertisement_leaves_no_trace (args : ReceivedEventArgs) (s : World) :
  g_niox_only (globals s) = true →
  ¬ niox_text `prefix_of` utf8_name (LocalName (Advertisement args)) →
  deliver args s = Some (tt, s).
Proof.
  intros Hniox Hnp. unfold deliver.
  rewrite (bind_run _ _ s (globals s) s) by reflexivity.
  destruct (g_watcher (globals s)); [|done].
  destruct (on_received_run args s) as (s' & Hrun & [(_ & _ & ->)|[[Hf|Hp] _]]);
    [done|congruence|done].
Qed.

(** X9: the handler does not merge repeated advertisements: the same
    advertisement received twice in an unfiltered scan gives two entries of
    the list, with the same name, address text and signal strength but each
    with arrays of its own. *)
Theorem repeated_advertisement_listed_twice (args : ReceivedEventArgs) (s : World) :
  g_watcher (globals s) ≠ None →
  g_niox_only (globals s) = false →
  ∃ s1 s2 d1 d2,
    deliver args s = Some (tt, s1)
    ∧ deliver args s1 = Some (tt, s2)
    ∧ g_discovered_devices (globals s2)
      = g_discovered_devices (globals s) ++ [d1; d2]
    ∧ name_of s2 d1 = name_of s2 d2
    ∧ (∃ a1 a2, address d1 = Some a1 ∧ address d2 = Some a2 ∧ a1 ≠ a2
                ∧ heap s2 !! a1 = heap s2 !! a2
                ∧ is_Some (heap s2 !! a1))
    ∧ rssi d1 = rssi d2
    ∧ (∀ l, l ∈ device_ptrs d1 → l ∉ device_ptrs d2).
Proof.
  intros Hw Hniox.
  assert (Hdel : ∀ t, g_watcher (globals t) = g_watcher (globals s) →
                      deliver args t = on_received args t).
  { intros t Ht. unfold deliver.
    rewrite (bind_run _ _ t (globals t) t) by reflexivity. rewrite Ht.
    by destruct (g_watcher (globals s)). }
  destruct (on_received_run args s) as (s1 & Hrun1 & [(Ht & _)|[_ [d1 Hrep1]]]);
    [congruence|].
  pose proof (received_report_globals _ _ _ _ Hrep1) as (_ & Hw1 & _ & _ & Hn1 & _).
  destruct (on_received_run args s1) as (s2 & Hrun2 & [(Ht & _)|[_ [d2 Hrep2]]]);
    [congruence|].
  exists s1, s2, d1, d2.
  rewrite (Hdel s) by done. rewrite (Hdel s1) by done.
  split; [done|]. split; [done|].
  destruct Hrep1 as ([Hd1 _] & _ & _ & Hr1 & _ & (a1 & Ha1 & _ & Hlive1 & Hbuf1) & Hname1 & _ & _).
  destruct Hrep2 as ([Hd2 _] & _ & _ & Hr2 & _ & (a2 & Ha2 & Hfresh2 & Hlive2 & Hbuf2) & Hname2 & _ & Hkept2).
  (* the arrays of the second entry are fresh in [s1], those of the first live *)
  assert (Hfresh : ∀ l, l ∈ device_ptrs d2 → heap s1 !! l = None).
  { unfold device_ptrs. rewrite Ha2. intros l [Hl|Hl]%elem_of_app.
    - destruct (name d2) as [n|]; simpl in Hl; [|by apply elem_of_nil in Hl].
      apply list_elem_of_singleton in Hl as ->. by destruct Hname2 as (_ & ? & _).
    - by apply list_elem_of_singleton in Hl as ->. }
  assert (Hold : ∀ l, l ∈ device_ptrs d1 → is_Some (heap s1 !! l)).
  { unfold device_ptrs. rewrite Ha1. intros l [Hl|Hl]%elem_of_app.
    - destruct (name d1) as [n|]; simpl in Hl; [|by apply elem_of_nil in Hl].
      apply list_elem_of_singleton in Hl as ->. destruct Hname1 as (_ & _ & ->). eauto.
    - by apply list_elem_of_singleton in Hl as ->. }
  assert (Hdisj : ∀ l, l ∈ device_ptrs d1 → l ∉ device_ptrs d2).
  { intros l Hl1 Hl2. destruct (Hold l Hl1) as [buf Hbuf].
    rewrite (Hfresh l Hl2) in Hbuf. done. }
  split; [by rewrite Hd2, Hd1, <- app_assoc|].
  split; [|split; [|split; [congruence|done]]].
  - unfold name_of. destruct (name d1) as [n1|] eqn:En1, (name d2) as [n2|] eqn:En2.
    + destruct Hname1 as (_ & _ & Hb1). destruct Hname2 as (_ & _ & Hb2).
      rewrite Hb2, Hkept2, Hb1; [done|].
      apply Hdisj. unfold device_ptrs. rewrite En1. left.
    + by destruct Hname1 as [? _].
    + by destruct Hname2 as [? _].
    + done.
  - exists a1, a2.
    assert (Hin1 : a1 ∈ device_ptrs d1).
    { unfold device_ptrs. rewrite Ha1. apply elem_of_app. right. left. }
    assert (Ha12 : a1 ≠ a2).
    { intros ->. destruct Hlive1 as [buf Hbuf]. congruence. }
    rewrite (Hkept2 a1 (Hdisj a1 Hin1)), Hbuf1, Hbuf2.
    repeat split; try done. by rewrite <- Hbuf1.
Qed.

(** ** Every way a call of [winrt_start_scan] can go *)

Lemma winrt_start_scan_effects (pf : Platform) (durationMs nioxOnly : Z)
    (callback : DeviceFoundCallback) (userData : voidptr) (s : World) :
  ∃ r s' new,
    winrt_start_scan pf durationMs nioxOnly callback userData s = Some (r, s')
    ∧ effects s' = effects s ++ new
    ∧ (r = 0 ∨ r = -1)
    ∧ (r = 0 ↔ g_watcher (globals s) = None
               ∧ can_initialize pf s = true
               ∧ scan_throws pf = None)
    ∧ (r = -1 → g_watcher (globals s') = g_watcher (globals s))
    ∧ detaches_thread new = (r =? 0)
    ∧ callback_devices new = []
    ∧ fold_left watcher_effect new (option_list (g_watcher (globals s)))
      = option_list (g_watcher (globals s')).
Proof.
  destruct pf as [throws fault ad].
  unfold winrt_start_scan, winrt_initialize, scan_reset, scan_launch, scan_catch,
    throws_at, make_watcher, update_globals, get_globals, emit, bind, ret,
    can_initialize.
  cbn [init_apartment_throws scan_throws].
  destruct (g_initialized (globals s)) eqn:Hi; [|destruct throws];
    (destruct (g_watcher (globals s)) eqn:Hw; [|destruct fault as [[]|]]).
  all: repeat (progress (cbn -[Pos.succ]; rewrite ?Hi, ?Hw)).
  all: eexists _, _, _; (split; [reflexivity|]); cbn -[Pos.succ]; rewrite ?Hi, ?Hw.
  all: rewrite <- ?app_assoc.
  all: (split; [first [reflexivity | symmetry; apply app_nil_r]|]).
  all: cbn -[Pos.succ]; rewrite ?Pos.eqb_refl; cbn -[Pos.succ].
  all: (split; [auto|]); (split; [split; [intros; try lia| intros (? & ? & ?)]; done|]).
  all: repeat split; try done.
Qed.

(** X10: [winrt_start_scan] always returns, with 0 or -1. It returns 0
    exactly when no scan is running, the library is or can be initialized,
    and no statement of its [try] block throws; a call that returns -1
    leaves the watcher handle as it found it. *)
Theorem winrt_start_scan_succeeds_iff (pf : Platform) (durationMs nioxOnly : Z)
    (callback : DeviceFoundCallback) (userData : voidptr) (s : World) :
  ∃ r s',
    winrt_start_scan pf durationMs nioxOnly callback userData s = Some (r, s')
    ∧ (r = 0 ∨ r = -1)
    ∧ (r = 0 ↔ g_watcher (globals s) = None
               ∧ can_initialize pf s = true
               ∧ scan_throws pf = None)
    ∧ (r = -1 → g_watcher (globals s') = g_watcher (globals s)).
Proof.
  destruct (winrt_start_scan_effects pf durationMs nioxOnly callback userData s)
    as (r & s' & new & Hrun & _ & Hr & Hiff & Hfail & _).
  by exists r, s'.
Qed.

(** X11: the timer thread that will stop the scan is detached by the calls
    of [winrt_start_scan] that return 0 and by no other: a failed call
    leaves no thread behind. *)
Theorem timer_thread_only_on_success (pf : Platform) (durationMs nioxOnly : Z)
    (callback : DeviceFoundCallback) (userData : voidptr) (s : World) :
  ∃ r s' new,
    winrt_start_scan pf durationMs nioxOnly callback userData s = Some (r, s')
    ∧ effects s' = effects s ++ new
    ∧ detaches_thread new = (r =? 0).
Proof.
  destruct (winrt_start_scan_effects pf durationMs nioxOnly callback userData s)
    as (r & s' & new & Hrun & He & _ & _ & _ & Hthread & _).
  by exists r, s', new.
Qed.

(** X12: the failure of a statement of the [try] block is not atomic: the
    call returns -1 without a watcher, but the list of discovered devices
    is already cleared and the callback, the user data and the filter flag
    are those of the failed call. The arrays of the cleared list are not
    freed. *)
Theorem failed_launch_discards_results (pf : Platform) (step : ScanStep)
    (durationMs nioxOnly : Z) (callback : DeviceFoundCallback)
    (userData : voidptr) (s : World) :
  g_watcher (globals s) = None →
  can_initialize pf s = true →
  scan_throws pf = Some step →
  ∃ s',
    winrt_start_scan pf durationMs nioxOnly callback userData s = Some (-1, s')
    ∧ g_watcher (globals s') = None
    ∧ g_discovered_devices (globals s') = []
    ∧ g_callback (globals s') = callback
    ∧ g_user_data (globals s') = userData
    ∧ g_niox_only (globals s') = negb (nioxOnly =? 0)
    ∧ g_initialized (globals s') = true
    ∧ heap s' = heap s.
Proof.
  destruct pf as [throws fault ad]. unfold can_initialize.
  cbn [init_apartment_throws scan_throws]. intros Hw Hcan ->.
  unfold winrt_start_scan, winrt_initialize, scan_reset, scan_launch, scan_catch,
    throws_at, make_watcher, update_globals, get_globals, emit, bind, ret.
  cbn [init_apartment_throws scan_throws].
  destruct (g_initialized (globals s)) eqn:Hi; [|destruct throws; [done|]];
    destruct step.
  all: repeat (progress (cbn -[Pos.succ]; rewrite ?Hi, ?Hw)).
  all: eexists; (split; [reflexivity|]); cbn -[Pos.succ]; by rewrite ?Hi, ?Hw.
Qed.

(** X13: [winrt_start_scan] clears the list of discovered devices without
    freeing its arrays, so they are lost to the library: a [winrt_cleanup]
    right after a successful start returns and frees nothing. *)
Theorem restart_leaks_previous_arrays (pf : Platform) (durationMs nioxOnly : Z)
    (callback : DeviceFoundCallback) (userData : voidptr) (s s1 : World) :
  winrt_start_scan pf durationMs nioxOnly callback userData s = Some (0, s1) →
  heap s1 = heap s
  ∧ ∃ s2, winrt_cleanup s1 = Some (tt, s2) ∧ heap s2 = heap s.
Proof.
  intros Hstart. apply winrt_start_scan_ok in Hstart as (_ & Hg & _ & Hh & _).
  split; [done|].
  assert (Howns : heap_owns s1).
  { unfold heap_owns. rewrite Hg. simpl. split; [apply NoDup_nil_2|].
    intros l Hl. by apply elem_of_nil in Hl. }
  destruct (winrt_cleanup_total s1 Howns) as [s2 Hrun]. exists s2. split; [done|].
  apply winrt_cleanup_run in Hrun as (_ & _ & _ & t1 & t2 & Ht1 & Hfree & Ht2).
  rewrite Hg in Hfree. simpl in Hfree. unfold ret in Hfree. simplify_eq.
  by rewrite Ht2, Ht1.
Qed.

(** ** Invariants of the library's runs *)

Lemma callback_devices_app (k1 k2 : list Effect) :
  callback_devices (k1 ++ k2) = callback_devices k1 ++ callback_devices k2.
Proof.
  induction k1 as [|e k1 IH]; [done|]. destruct e; simpl; by rewrite ?IH.
Qed.

Lemma winrt_check_bluetooth_state_frame (pf : Platform) (s : World) :
  ∃ r s1,
    winrt_check_bluetooth_state pf s = Some (r, s1)
    ∧ heap s1 = heap s
    ∧ (effects s1 = effects s ∨ effects s1 = effects s ++ [InitApartment])
    ∧ g_watcher (globals s1) = g_watcher (globals s)
    ∧ g_discovered_devices (globals s1) = g_discovered_devices (globals s)
    ∧ g_callback (globals s1) = g_callback (globals s).
Proof.
  unfold winrt_check_bluetooth_state.
  rewrite (bind_run _ _ s (globals s) s) by reflexivity.
  destruct (winrt_initialize_run pf s)
    as (r & s1 & Hinit & Hh
        & [(Hi & -> & ->)|[(Hi & _ & -> & Hg & He)|(Hi & _ & -> & Hg & He)]]).
  - rewrite Hi, (bind_run _ _ s 0 s) by reflexivity. simpl.
    destruct (adapter pf) as [| | |[]]; eexists _, _; (split; [reflexivity|]); auto 10.
  - rewrite Hi, (bind_run _ _ s (-1) s1 Hinit). simpl.
    eexists _, _. split; [reflexivity|]. rewrite Hg. auto 10.
  - rewrite Hi, (bind_run _ _ s 0 s1 Hinit). simpl.
    destruct (adapter pf) as [| | |[]]; eexists _, _; (split; [reflexivity|]);
      rewrite Hg; auto 10.
Qed.

Lemma step_one_watcher (c : Call) (s s' : World) :
  step c s = Some (tt, s') → one_watcher s → one_watcher s'.
Proof.
  unfold one_watcher, live_watchers. intros Hstep Hinv.
  destruct c as [pf| |pf|pf d n cb ud| |str|args]; simpl in Hstep.
  - destruct (winrt_initialize_run pf s) as (r & s1 & Hrun & _ & Hcases).
    rewrite (bind_run _ _ s r s1 Hrun) in Hstep. unfold ret in Hstep. simplify_eq.
    destruct Hcases as [(_ & _ & ->)|[(_ & _ & _ & Hg & He)|(_ & _ & _ & Hg & He)]];
      [done| |]; by rewrite Hg, He, fold_left_app, Hinv.
  - apply winrt_cleanup_run in Hstep as (Hg & _ & He & _).
    rewrite Hg, He, fold_left_app, Hinv.
    destruct (g_watcher (globals s)) as [w|]; simpl; [|done].
    by rewrite Pos.eqb_refl.
  - destruct (winrt_check_bluetooth_state_frame pf s)
      as (r & s1 & Hrun & _ & He & Hw & _).
    rewrite (bind_run _ _ s r s1 Hrun) in Hstep. unfold ret in Hstep. simplify_eq.
    rewrite Hw. destruct He as [He|He]; rewrite He; [done|].
    by rewrite fold_left_app, Hinv.
  - destruct (winrt_start_scan_effects pf d n cb ud s)
      as (r & s1 & new & Hrun & He & _ & _ & _ & _ & _ & Hlive).
    rewrite (bind_run _ _ s r s1 Hrun) in Hstep. unfold ret in Hstep. simplify_eq.
    by rewrite He, fold_left_app, Hinv.
  - destruct (winrt_stop_scan_run s) as (s1 & Hrun & Hw & _ & _ & He).
    rewrite Hrun in Hstep. simplify_eq. rewrite Hw, He, fold_left_app, Hinv.
    destruct (g_watcher (globals s)) as [w|]; simpl; [|done].
    by rewrite Pos.eqb_refl.
  - destruct str as [l|]; run_m; repeat case_match; by simplify_eq/=.
  - destruct (deliver_run args s) as (s1 & Hrun & Hs1).
    rewrite Hrun in Hstep. simplify_eq.
    destruct Hs1 as [->|[_ [device Hrep]]]; [done|].
    pose proof (received_report_globals _ _ _ _ Hrep) as (_ & Hw & _).
    destruct Hrep as ([_ He] & _). rewrite Hw, He, fold_left_app, Hinv.
    by destruct (g_callback (globals s)).
Qed.

(** X14: in every world the library reaches from its initial one, the
    watchers created and not yet released are exactly the one that
    [g_watcher] holds: there is never a second watcher, and a watcher the
    library lets go of, by a stop, a cleanup or a failed start, has been
    released. *)
Theorem at_most_one_watcher (cs : list Call) (s : World) :
  run cs initial_world = Some (tt, s) →
  live_watchers (effects s) = option_list (g_watcher (globals s)).
Proof.
  assert (Hgen : ∀ t, run cs t = Some (tt, s) → one_watcher t → one_watcher s).
  { induction cs as [|c cs IH]; intros t; simpl.
    - by intros [= <-].
    - unfold bind. destruct (step c t) as [[[] t1]|] eqn:Hstep; [|done].
      eauto using step_one_watcher. }
  intros Hrun. by apply (Hgen initial_world Hrun).
Qed.

Lemma step_listed_were_called (c : Call) (s s' : World) :
  step c s = Some (tt, s') → listed_were_called s → listed_were_called s'.
Proof.
  unfold listed_were_called. intros Hstep Hinv.
  destruct c as [pf| |pf|pf d n cb ud| |str|args]; simpl in Hstep.
  - destruct (winrt_initialize_run pf s) as (r & s1 & Hrun & _ & Hcases).
    rewrite (bind_run _ _ s r s1 Hrun) in Hstep. unfold ret in Hstep. simplify_eq.
    destruct Hcases as [(_ & _ & ->)|[(_ & _ & _ & Hg & He)|(_ & _ & _ & Hg & He)]];
      [done| |]; rewrite Hg, He, callback_devices_app, app_nil_r; done.
  - apply winrt_cleanup_run in Hstep as (Hg & _). rewrite Hg. by left.
  - destruct (winrt_check_bluetooth_state_frame pf s)
      as (r & s1 & Hrun & _ & He & _ & Hd & Hcb).
    rewrite (bind_run _ _ s r s1 Hrun) in Hstep. unfold ret in Hstep. simplify_eq.
    rewrite Hd, Hcb.
    destruct He as [He|He]; rewrite He; [done|].
    by rewrite callback_devices_app, app_nil_r.
  - destruct (winrt_start_scan_effects pf d n cb ud s)
      as (r & s1 & new & Hrun & He & _ & _ & _ & _ & Hnew & _).
    destruct (winrt_start_scan_run pf d n cb ud s) as (r' & s1' & Hrun' & _ & _ & _ & Hcases).
    rewrite Hrun in Hrun'. simplify_eq.
    rewrite (bind_run _ _ s r' s1' Hrun) in Hstep. unfold ret in Hstep. simplify_eq.
    rewrite He, callback_devices_app, Hnew, app_nil_r.
    destruct Hcases
      as [(_ & _ & Hd & _ & _ & Hcb & _)|[(_ & _ & _ & _ & Hd)|(_ & _ & _ & _ & _ & Hd)]];
      rewrite Hd; [by rewrite Hcb| |]; right; apply suffix_nil.
  - destruct (winrt_stop_scan_run s) as (s1 & Hrun & _ & _ & Hd & He).
    rewrite Hrun in Hstep. simplify_eq.
    assert (Hcb : g_callback (globals s') = g_callback (globals s)).
    { revert Hrun. run_m. repeat case_match; intros; by simplify_eq/=. }
    rewrite Hd, Hcb, He, callback_devices_app.
    destruct (g_watcher (globals s)); simpl; by rewrite app_nil_r.
  - destruct str as [l|]; run_m; repeat case_match; by simplify_eq/=.
  - destruct (deliver_run args s) as (s1 & Hrun & Hs1).
    rewrite Hrun in Hstep. simplify_eq.
    destruct Hs1 as [->|[_ [device Hrep]]]; [done|].
    pose proof (received_report_globals _ _ _ _ Hrep) as (_ & _ & Hcb & _).
    destruct Hrep as ([Hd He] & _). rewrite Hcb, Hd, He, callback_devices_app.
    destruct (g_callback (globals s)) as [cb|]; [|by left].
    destruct Hinv as [|Hinv]; [done|]. right. simpl. by apply suffix_app.
Qed.

(** X15: in every world the library reaches from its initial one with a
    callback registered, the devices of the list have all been handed to a
    callback, in the order of the list, and they are the devices of the
    last such calls. *)
Theorem listed_devices_were_called (cs : list Call) (s : World) :
  run cs initial_world = Some (tt, s) →
  g_callback (globals s) ≠ None →
  g_discovered_devices (globals s) `suffix_of` callback_devices (effects s).
Proof.
  assert (Hgen : ∀ t, run cs t = Some (tt, s) →
                      listed_were_called t → listed_were_called s).
  { induction cs as [|c cs IH]; intros t; simpl.
    - by intros [= <-].
    - unfold bind. destruct (step c t) as [[[] t1]|] eqn:Hstep; [|done].
      eauto using step_listed_were_called. }
  intros Hrun Hcb. destruct (Hgen initial_world Hrun) as [Hnone|Hsuf]; [by left|done|done].
Qed.

Lemma free_devices_shrinks (ds : list BLEDevice) (s s' : World) :
  free_devices ds s = Some (tt, s') →
  ∀ l buf, heap s' !! l = Some buf → heap s !! l = Some buf.
Proof.
  revert s. induction ds as [|d ds IH]; intros s.
  { by intros [= <-]. }
  cbn [free_devices]. unfold bind at 1.
  destruct (delete_if (name d) s) as [[[] s1]|] eqn:H1; [|done].
  unfold bind at 1.
  destruct (delete_if (address d) s1) as [[[] s2]|] eqn:H2; [|done].
  intros Hrest l buf Hl. apply (IH _ Hrest) in Hl.
  apply delete_if_inv in H1 as [_ Hs1]. apply delete_if_inv in H2 as [_ Hs2].
  rewrite Hs2 in Hl. case_bool_decide; [done|].
  rewrite Hs1 in Hl. by case_bool_decide.
Qed.

Lemma step_heap_terminated (c : Call) (s s' : World) :
  step c s = Some (tt, s') → heap_terminated s → heap_terminated s'.
Proof.
  unfold heap_terminated. intros Hstep Hinv.
  destruct c as [pf| |pf|pf d n cb ud| |str|args]; simpl in Hstep.
  - destruct (winrt_initialize_run pf s) as (r & s1 & Hrun & Hh & _).
    rewrite (bind_run _ _ s r s1 Hrun) in Hstep. unfold ret in Hstep. simplify_eq.
    by rewrite Hh.
  - apply winrt_cleanup_run in Hstep as (_ & _ & _ & t1 & t2 & Ht1 & Hfree & Ht2).
    intros l buf Hl. rewrite Ht2 in Hl.
    apply (free_devices_shrinks _ _ _ Hfree) in Hl. rewrite Ht1 in Hl. eauto.
  - destruct (winrt_check_bluetooth_state_frame pf s) as (r & s1 & Hrun & Hh & _).
    rewrite (bind_run _ _ s r s1 Hrun) in Hstep. unfold ret in Hstep. simplify_eq.
    by rewrite Hh.
  - destruct (winrt_start_scan_run pf d n cb ud s) as (r & s1 & Hrun & Hh & _).
    rewrite (bind_run _ _ s r s1 Hrun) in Hstep. unfold ret in Hstep. simplify_eq.
    by rewrite Hh.
  - destruct (winrt_stop_scan_run s) as (s1 & Hrun & _ & Hh & _).
    rewrite Hrun in Hstep. simplify_eq. by rewrite Hh.
  - unfold winrt_free_string in Hstep. apply delete_if_inv in Hstep as [_ Hs'].
    intros l buf Hl. rewrite Hs' in Hl. case_bool_decide; [done|]. eauto.
  - destruct (deliver_run args s) as (s1 & Hrun & Hs1).
    rewrite Hrun in Hstep. simplify_eq.
    destruct Hs1 as [->|[_ [device Hrep]]]; [done|].
    destruct Hrep as (_ & _ & _ & _ & _ & (a & Ha & _ & _ & Hbuf) & Hname & _ & Hkept).
    intros l buf Hl.
    destruct (decide (l ∈ device_ptrs device)) as [Hin|Hout].
    2: { rewrite (Hkept l Hout) in Hl. by apply (Hinv l). }
    unfold device_ptrs in Hin. rewrite Ha in Hin.
    apply elem_of_app in Hin as [Hin|Hin].
    + destruct (name device) as [n|]; simpl in Hin; [|by apply elem_of_nil in Hin].
      apply list_elem_of_singleton in Hin as ->.
      destruct Hname as (_ & _ & Hn). rewrite Hn in Hl. simplify_eq.
      apply last_snoc.
    + apply list_elem_of_singleton in Hin as ->. rewrite Hbuf in Hl.
      destruct (format_bluetooth_address_buf_text (BluetoothAddress args))
        as (text & Htext & _).
      rewrite Htext in Hl. simplify_eq. apply last_snoc.
Qed.

(** X16: in every world the library reaches from its initial one, every
    live array, whether a converted name or an address text, ends with a
    NUL: no string the library hands out is unterminated. *)
Theorem every_string_terminated (cs : list Call) (s : World) (l : loc) (buf : cbuf) :
  run cs initial_world = Some (tt, s) →
  heap s !! l = Some buf →
  last buf = Some NUL.
Proof.
  assert (Hgen : ∀ t, run cs t = Some (tt, s) → heap_terminated t → heap_terminated s).
  { induction cs as [|c cs IH]; intros t; simpl.
    - by intros [= <-].
    - unfold bind. destruct (step c t) as [[[] t1]|] eqn:Hstep; [|done].
      eauto using step_heap_terminated. }
  intros Hrun. apply (Hgen initial_world Hrun). by intros ? ? ?.
Qed.

(** ** Cleaning up again *)

(** X17: after [winrt_cleanup] has returned, a second [winrt_cleanup]
    returns too and changes neither the globals nor the heap, but it calls
    [uninit_apartment] once more. *)
Theorem winrt_cleanup_twice (s s1 : World) :
  winrt_cleanup s = Some (tt, s1) →
  ∃ s2,
    winrt_cleanup s1 = Some (tt, s2)
    ∧ globals s2 = globals s1
    ∧ heap s2 = heap s1
    ∧ effects s2 = effects s1 ++ [UninitApartment].
Proof.
  intros Hrun. apply winrt_cleanup_run in Hrun as (Hg & _).
  assert (Howns : heap_owns s1).
  { unfold heap_owns. rewrite Hg. simpl. split; [apply NoDup_nil_2|].
    intros l Hl. by apply elem_of_nil in Hl. }
  destruct (winrt_cleanup_total s1 Howns) as [s2 Hrun2]. exists s2. split; [done|].
  apply winrt_cleanup_run in Hrun2 as (Hg2 & _ & He2 & t1 & t2 & Ht1 & Hfree & Ht2).
  rewrite Hg in Hfree, He2, Hg2. simpl in *. unfold ret in Hfree. simplify_eq.
  rewrite Hg, Hg2, He2, Ht2, Ht1. done.
Qed.

(** ** A client that leaves the library's arrays alone *)

(** X18: in a run in which the calls of the client, the invocations of the
    advertisement handler and the bodies of the timer threads happen one
    at a time, a client that uses [winrt_free_string] only on live arrays
    the list of discovered devices does not point to never drives the
    library into undefined behaviour: every one of these steps returns, and
    in the world the run reaches [winrt_cleanup] returns as well. *)
Theorem polite_client_is_safe (cs : list Call) :
  polite cs initial_world →
  ∃ s s',
    run cs initial_world = Some (tt, s)
    ∧ heap_owns s
    ∧ winrt_cleanup s = Some (tt, s').
Proof.
  intros Hpolite.
  destruct (run_heap_owns cs initial_world initial_world_owns Hpolite)
    as (s & Hrun & Howns).
  destruct (winrt_cleanup_total s Howns) as [s' Hclean]. by exists s, s'.
Qed.

(** ** Trying again *)

(** X19: a [winrt_initialize] that fails returns -1 and leaves the globals
    and the heap as they were, so the library stays uninitialized; a later
    call, on a platform where [init_apartment] does not throw, returns 0 and
    sets the flag. *)
Theorem winrt_initialize_retry (pf pf' : Platform) (s : World) :
  g_initialized (globals s) = false →
  init_apartment_throws pf = true →
  init_apartment_throws pf' = false →
  ∃ s1 s2,
    winrt_initialize pf s = Some (-1, s1)
    ∧ globals s1 = globals s
    ∧ heap s1 = heap s
    ∧ winrt_initialize pf' s1 = Some (0, s2)
    ∧ globals s2 = set_initialized true (globals s)
    ∧ effects s2 = effects s ++ [InitApartment; InitApartment].
Proof.
  intros Hi Ht Ht'.
  destruct (winrt_initialize_run pf s)
    as (r & s1 & Hrun & Hh & [(Hi1 & _)|[(_ & _ & -> & Hg & He)|(_ & Ht1 & _)]]);
    [congruence| |congruence].
  destruct (winrt_initialize_run pf' s1)
    as (r2 & s2 & Hrun2 & Hh2 & [(Hi2 & _)|[(_ & Ht2 & _)|(_ & _ & -> & Hg2 & He2)]]);
    [rewrite Hg in Hi2; congruence|congruence|].
  exists s1, s2. rewrite Hg2, Hg, He2, He, <- app_assoc. done.
Qed.

(** ** The results of a running scan *)

Section accumulating_results.

Variables (w : watcher) (base : list BLEDevice).

Lemma step_results_extend (c : Call) (s s' : World) :
  step c s = Some (tt, s') → results_extend w base s → results_extend w base s'.
Proof.
  unfold results_extend. intros Hstep [Hlt Hpre].
  destruct c as [pf| |pf|pf d n cb ud| |str|args]; simpl in Hstep.
  - destruct (winrt_initialize_run pf s) as (r & s1 & Hrun & _ & Hcases).
    rewrite (bind_run _ _ s r s1 Hrun) in Hstep. unfold ret in Hstep. simplify_eq.
    assert (Hnw : next_watcher s' = next_watcher s).
    { revert Hrun. run_m. repeat case_match; intros; by simplify_eq/=. }
    rewrite Hnw.
    destruct Hcases as [(_ & _ & ->)|[(_ & _ & _ & Hg & _)|(_ & _ & _ & Hg & _)]];
      [done| |]; by rewrite Hg.
  - apply winrt_cleanup_run in Hstep as (Hg & Hnw & _). rewrite Hg, Hnw. done.
  - destruct (winrt_check_bluetooth_state_frame pf s)
      as (r & s1 & Hrun & _ & _ & Hw & Hd & _).
    rewrite (bind_run _ _ s r s1 Hrun) in Hstep. unfold ret in Hstep. simplify_eq.
    assert (Hnw : next_watcher s' = next_watcher s).
    { revert Hrun. run_m. repeat case_match; intros; by simplify_eq/=. }
    by rewrite Hnw, Hw, Hd.
  - destruct (winrt_start_scan_run pf d n cb ud s)
      as (r & s1 & Hrun & _ & Hle & _ & Hcases).
    rewrite (bind_run _ _ s r s1 Hrun) in Hstep. unfold ret in Hstep. simplify_eq.
    destruct Hcases
      as [(_ & Hw & Hd & _ & Hnw & _)|[(_ & _ & Hw & _)|(_ & _ & Hw & _ & Hnw & _)]].
    + by rewrite Hw, Hd, Hnw.
    + rewrite Hw. split; [lia|done].
    + rewrite Hw, Hnw. split; [lia|]. intros [= <-]. lia.
  - destruct (winrt_stop_scan_run s) as (s1 & Hrun & Hw & _).
    rewrite Hrun in Hstep. simplify_eq. rewrite Hw. split; [|done].
    revert Hrun. run_m. repeat case_match; intros; by simplify_eq/=.
  - destruct str as [l|]; run_m; repeat case_match; by simplify_eq/=.
  - destruct (deliver_run args s) as (s1 & Hrun & Hs1).
    rewrite Hrun in Hstep. simplify_eq.
    destruct Hs1 as [->|[_ [device Hrep]]]; [done|].
    pose proof (received_report_globals _ _ _ _ Hrep) as (_ & Hw & _ & _ & _ & Hnw).
    destruct Hrep as ([Hd _] & _). rewrite Hw, Hnw, Hd. split; [done|].
    intros Hcur. by apply prefix_app_r, Hpre.
Qed.

Lemma run_results_extend (cs : list Call) (s s' : World) :
  run cs s = Some (tt, s') → results_extend w base s → results_extend w base s'.
Proof.
  revert s. induction cs as [|c cs IH]; intros s; simpl.
  { by intros [= <-]. }
  unfold bind. destruct (step c s) as [[[] s1]|] eqn:Hstep; [|done].
  eauto using step_results_extend.
Qed.

End accumulating_results.

(** X20: while a scan runs its results only accumulate: between two worlds
    of the same scan, whatever was called or received in between, the list
    of discovered devices of the earlier world is a prefix of the list of
    the later one. *)
Theorem scan_results_accumulate (w : watcher) (cs : list Call) (a b : World) :
  (w < next_watcher a)%positive →
  g_watcher (globals a) = Some w →
  run cs a = Some (tt, b) →
  g_watcher (globals b) = Some w →
  g_discovered_devices (globals a) `prefix_of` g_discovered_devices (globals b).
Proof.
  intros Hlt Hwa Hrun Hwb.
  destruct (run_results_extend w (g_discovered_devices (globals a)) cs a b Hrun)
    as [_ Hpre]; [by split|]. by apply Hpre.
Qed.

(** ** The sample session, continued *)

Lemma hstring_to_cstring_whole_witness :
  Forall (λ u, 0 ≤ u) (wide "NIOX PRO 0042")
  ∧ ∃ l s' buf,
      hstring_to_cstring (wide "NIOX PRO 0042") initial_world = Some (l, s')
      ∧ heap initial_world !! l = None
      ∧ heap s' !! l = Some buf
      ∧ cstr buf = WideCharToMultiByte (wcs (wide "NIOX PRO 0042"))
      ∧ length buf = S (strlen buf)
      ∧ (∀ l', l' ≠ l → heap s' !! l' = heap initial_world !! l').
Proof.
  assert (H1 : Forall (λ u, 0 ≤ u) (wide "NIOX PRO 0042"))
    by (apply (bool_decide_unpack _); vm_compute; reflexivity).
  split; [exact H1|].
  exact (hstring_to_cstring_whole (wide "NIOX PRO 0042") initial_world H1).
Defined.

Lemma hstring_to_cstring_ascii_witness :
  Forall (λ c, 0 < Z_of_char c < 128) (list_ascii_of_string "NIOX PRO 0042")
  ∧ hstring_to_cstring_buf (map Z_of_char (list_ascii_of_string "NIOX PRO 0042"))
    = list_ascii_of_string "NIOX PRO 0042" ++ [NUL].
Proof.
  assert (H1 : Forall (λ c, 0 < Z_of_char c < 128)
                      (list_ascii_of_string "NIOX PRO 0042"))
    by (apply (bool_decide_unpack _); vm_compute; reflexivity).
  split; [exact H1|].
  exact (hstring_to_cstring_ascii (list_ascii_of_string "NIOX PRO 0042") H1).
Defined.

Lemma winrt_free_string_once_witness :
  is_Some (heap niox_scan_restarted !! 1%positive)
  ∧ winrt_free_string None niox_scan_restarted = Some (tt, niox_scan_restarted)
  ∧ ∃ s1,
      winrt_free_string (Some 1%positive) niox_scan_restarted = Some (tt, s1)
      ∧ heap s1 !! 1%positive = None
      ∧ (∀ l', l' ≠ 1%positive → heap s1 !! l' = heap niox_scan_restarted !! l')
      ∧ globals s1 = globals niox_scan_restarted
      ∧ effects s1 = effects niox_scan_restarted
      ∧ winrt_free_string (Some 1%positive) s1 = None.
Proof.
  assert (H1 : is_Some (heap niox_scan_restarted !! 1%positive))
    by (apply (bool_decide_unpack _); vm_compute; reflexivity).
  split; [exact H1|].
  exact (winrt_free_string_once 1%positive niox_scan_restarted H1).
Defined.

Lemma free_then_cleanup_undefined_witness :
  heap_owns niox_scan_found
  ∧ 1%positive ∈ owned (g_discovered_devices (globals niox_scan_found))
  ∧ Forall (λ c, is_start_scan c = false) calls_before_cleanup
  ∧ ∃ s1,
      winrt_free_string (Some 1%positive) niox_scan_found = Some (tt, s1)
      ∧ winrt_cleanup s1 = None
      ∧ run (calls_before_cleanup ++ [CleanupCall]) s1 = None.
Proof.
  assert (H1 : heap_owns niox_scan_found).
  { split.
    - apply (bool_decide_unpack _). vm_compute. reflexivity.
    - apply Forall_forall. apply (bool_decide_unpack _). vm_compute. reflexivity. }
  assert (H2 : 1%positive ∈ owned (g_discovered_devices (globals niox_scan_found)))
    by (apply (bool_decide_unpack _); vm_compute; reflexivity).
  assert (H3 : Forall (λ c, is_start_scan c = false) calls_before_cleanup)
    by (repeat constructor).
  split; [exact H1|]. split; [exact H2|]. split; [exact H3|].
  exact (free_then_cleanup_undefined 1%positive niox_scan_found calls_before_cleanup
           H1 H2 H3).
Defined.

(** In that session the calls before [winrt_cleanup] do return, and the
    list, one device longer, still points to the freed array. *)
Example calls_before_cleanup_return :
  ∃ s1 s2,
    winrt_free_string (Some 1%positive) niox_scan_found = Some (tt, s1)
    ∧ run calls_before_cleanup s1 = Some (tt, s2)
    ∧ owned (g_discovered_devices (globals s2))
      = [1%positive; 2%positive; 3%positive; 4%positive]
    ∧ heap s2 !! 1%positive = None
    ∧ winrt_cleanup s2 = None.
Proof.
  eexists _, _. split; [vm_compute; reflexivity|].
  split; [vm_compute; reflexivity|].
  split; [vm_compute; reflexivity|].
  split; vm_compute; reflexivity.
Qed.

Lemma filtered_advertisement_leaves_no_trace_witness :
  g_niox_only (globals niox_scan) = true
  ∧ ¬ niox_text `prefix_of` utf8_name (wide "Thermometer")
  ∧ deliver (sample_args (wide "Thermometer")) niox_scan = Some (tt, niox_scan).
Proof.
  assert (H1 : g_niox_only (globals niox_scan) = true) by reflexivity.
  assert (H2 : ¬ niox_text `prefix_of` utf8_name (wide "Thermometer"))
    by (apply (bool_decide_unpack _); vm_compute; reflexivity).
  split; [exact H1|]. split; [exact H2|].
  exact (filtered_advertisement_leaves_no_trace
           (sample_args (wide "Thermometer")) niox_scan H1 H2).
Defined.

Lemma repeated_advertisement_listed_twice_witness :
  g_watcher (globals open_scan) ≠ None
  ∧ g_niox_only (globals open_scan) = false
  ∧ ∃ s1 s2 d1 d2,
      deliver (sample_args (wide "Thermometer")) open_scan = Some (tt, s1)
      ∧ deliver (sample_args (wide "Thermometer")) s1 = Some (tt, s2)
      ∧ g_discovered_devices (globals s2)
        = g_discovered_devices (globals open_scan) ++ [d1; d2]
      ∧ name_of s2 d1 = name_of s2 d2
      ∧ (∃ a1 a2, address d1 = Some a1 ∧ address d2 = Some a2 ∧ a1 ≠ a2
                  ∧ heap s2 !! a1 = heap s2 !! a2
                  ∧ is_Some (heap s2 !! a1))
      ∧ rssi d1 = rssi d2
      ∧ (∀ l, l ∈ device_ptrs d1 → l ∉ device_ptrs d2).
Proof.
  assert (H1 : g_watcher (globals open_scan) ≠ None) by (vm_compute; discriminate).
  assert (H2 : g_niox_only (globals open_scan) = false) by reflexivity.
  split; [exact H1|]. split; [exact H2|].
  exact (repeated_advertisement_listed_twice
           (sample_args (wide "Thermometer")) open_scan H1 H2).
Defined.

Lemma failed_launch_discards_results_witness :
  g_watcher (globals niox_scan_stopped) = None
  ∧ can_initialize no_start niox_scan_stopped = true
  ∧ scan_throws no_start = Some AtStart
  ∧ g_discovered_devices (globals niox_scan_stopped) = [found_device]
  ∧ ∃ s',
      winrt_start_scan no_start 500 0 None None niox_scan_stopped = Some (-1, s')
      ∧ g_watcher (globals s') = None
      ∧ g_discovered_devices (globals s') = []
      ∧ g_callback (globals s') = None
      ∧ g_user_data (globals s') = None
      ∧ g_niox_only (globals s') = negb (0 =? 0)
      ∧ g_initialized (globals s') = true
      ∧ heap s' = heap niox_scan_stopped.
Proof.
  assert (H1 : g_watcher (globals niox_scan_stopped) = None) by reflexivity.
  assert (H2 : can_initialize no_start niox_scan_stopped = true) by reflexivity.
  assert (H3 : scan_throws no_start = Some AtStart) by reflexivity.
  split; [exact H1|]. split; [exact H2|]. split; [exact H3|].
  split; [reflexivity|].
  exact (failed_launch_discards_results no_start AtStart 500 0 None None
           niox_scan_stopped H1 H2 H3).
Defined.

Lemma restart_leaks_previous_arrays_witness :
  winrt_start_scan sample_platform 1000 1 (Some 7%positive) (Some 99) niox_scan_stopped
  = Some (0, niox_scan_restarted)
  ∧ heap niox_scan_restarted = heap niox_scan_stopped
  ∧ ∃ s2, winrt_cleanup niox_scan_restarted = Some (tt, s2)
          ∧ heap s2 = heap niox_scan_stopped.
Proof.
  assert (H1 : winrt_start_scan sample_platform 1000 1 (Some 7%positive) (Some 99)
                 niox_scan_stopped = Some (0, niox_scan_restarted))
    by (vm_compute; reflexivity).
  split; [exact H1|].
  exact (restart_leaks_previous_arrays sample_platform 1000 1 (Some 7%positive)
           (Some 99) niox_scan_stopped niox_scan_restarted H1).
Defined.

Lemma at_most_one_watcher_witness :
  run sample_session initial_world = Some (tt, niox_scan_found)
  ∧ live_watchers (effects niox_scan_found)
    = option_list (g_watcher (globals niox_scan_found)).
Proof.
  assert (H1 : run sample_session initial_world = Some (tt, niox_scan_found))
    by (vm_compute; reflexivity).
  split; [exact H1|].
  exact (at_most_one_watcher sample_session niox_scan_found H1).
Defined.

Lemma listed_devices_were_called_witness :
  run sample_session initial_world = Some (tt, niox_scan_found)
  ∧ g_callback (globals niox_scan_found) ≠ None
  ∧ g_discovered_devices (globals niox_scan_found)
    `suffix_of` callback_devices (effects niox_scan_found).
Proof.
  assert (H1 : run sample_session initial_world = Some (tt, niox_scan_found))
    by (vm_compute; reflexivity).
  assert (H2 : g_callback (globals niox_scan_found) ≠ None)
    by (vm_compute; discriminate).
  split; [exact H1|]. split; [exact H2|].
  exact (listed_devices_were_called sample_session niox_scan_found H1 H2).
Defined.

Lemma every_string_terminated_witness :
  run sample_session initial_world = Some (tt, niox_scan_found)
  ∧ heap niox_scan_found !! 1%positive
    = Some (list_ascii_of_string "NIOX PRO 0042" ++ [NUL])
  ∧ last (list_ascii_of_string "NIOX PRO 0042" ++ [NUL]) = Some NUL.
Proof.
  assert (H1 : run sample_session initial_world = Some (tt, niox_scan_found))
    by (vm_compute; reflexivity).
  assert (H2 : heap niox_scan_found !! 1%positive
               = Some (list_ascii_of_string "NIOX PRO 0042" ++ [NUL]))
    by (vm_compute; reflexivity).
  split; [exact H1|]. split; [exact H2|].
  exact (every_string_terminated sample_session niox_scan_found 1%positive _ H1 H2).
Defined.

Lemma winrt_cleanup_twice_witness :
  winrt_cleanup niox_scan_found = Some (tt, niox_scan_cleaned)
  ∧ ∃ s2,
      winrt_cleanup niox_scan_cleaned = Some (tt, s2)
      ∧ globals s2 = globals niox_scan_cleaned
      ∧ heap s2 = heap niox_scan_cleaned
      ∧ effects s2 = effects niox_scan_cleaned ++ [UninitApartment].
Proof.
  assert (H1 : winrt_cleanup niox_scan_found = Some (tt, niox_scan_cleaned))
    by (vm_compute; reflexivity).
  split; [exact H1|].
  exact (winrt_cleanup_twice niox_scan_found niox_scan_cleaned H1).
Defined.

Lemma polite_client_is_safe_witness :
  polite polite_session initial_world
  ∧ ∃ s s',
      run polite_session initial_world = Some (tt, s)
      ∧ heap_owns s
      ∧ winrt_cleanup s = Some (tt, s').
Proof.
  assert (H1 : polite polite_session initial_world).
  { unfold polite_session. cbn [polite keeps_owned].
    split; [exact I|]. intros s1 H1. vm_compute in H1. injection H1 as <-.
    split; [exact I|]. intros s2 H2. vm_compute in H2. injection H2 as <-.
    split; [exact I|]. intros s3 H3. vm_compute in H3. injection H3 as <-.
    split; [exact I|]. intros s4 H4. vm_compute in H4. injection H4 as <-.
    split.
    { split; apply (bool_decide_unpack _); vm_compute; reflexivity. }
    intros s5 H5. vm_compute in H5. injection H5 as <-.
    split; [exact I|]. intros s6 _. exact I. }
  split; [exact H1|].
  exact (polite_client_is_safe polite_session H1).
Defined.

(** What that session comes to: the freed name is gone, the address of the
    dropped device is still live and no longer the library's, and the list
    holds the device the second scan found. *)
Example polite_session_state :
  ∃ s,
    run polite_session initial_world = Some (tt, s)
    ∧ heap s !! 1%positive = None
    ∧ is_Some (heap s !! 2%positive)
    ∧ owned (g_discovered_devices (globals s)) = [3%positive; 4%positive].
Proof.
  eexists. split; [vm_compute; reflexivity|].
  split; [vm_compute; reflexivity|].
  split; [apply (bool_decide_unpack _)|]; vm_compute; reflexivity.
Qed.

Lemma winrt_initialize_retry_witness :
  g_initialized (globals initial_world) = false
  ∧ init_apartment_throws no_apartment = true
  ∧ init_apartment_throws sample_platform = false
  ∧ ∃ s1 s2,
      winrt_initialize no_apartment initial_world = Some (-1, s1)
      ∧ globals s1 = globals initial_world
      ∧ heap s1 = heap initial_world
      ∧ winrt_initialize sample_platform s1 = Some (0, s2)
      ∧ globals s2 = set_initialized true (globals initial_world)
      ∧ effects s2 = effects initial_world ++ [InitApartment; InitApartment].
Proof.
  split; [reflexivity|]. split; [reflexivity|]. split; [reflexivity|].
  exact (winrt_initialize_retry no_apartment sample_platform initial_world
           eq_refl eq_refl eq_refl).
Defined.

Lemma scan_results_accumulate_witness :
  (1 < next_watcher niox_scan)%positive
  ∧ g_watcher (globals niox_scan) = Some 1%positive
  ∧ run [ReceivedEvent (sample_args (wide "NIOX PRO 0042"))] niox_scan
    = Some (tt, niox_scan_found)
  ∧ g_watcher (globals niox_scan_found) = Some 1%positive
  ∧ g_discovered_devices (globals niox_scan)
    `prefix_of` g_discovered_devices (globals niox_scan_found).
Proof.
  assert (H1 : (1 < next_watcher niox_scan)%positive) by (vm_compute; reflexivity).
  assert (H2 : g_watcher (globals niox_scan) = Some 1%positive) by reflexivity.
  assert (H3 : run [ReceivedEvent (sample_args (wide "NIOX PRO 0042"))] niox_scan
               = Some (tt, niox_scan_found)) by (vm_compute; reflexivity).
  assert (H4 : g_watcher (globals niox_scan_found) = Some 1%positive) by reflexivity.
  split; [exact H1|]. split; [exact H2|]. split; [exact H3|]. split; [exact H4|].
  exact (scan_results_accumulate 1%positive _ niox_scan niox_scan_found H1 H2 H3 H4).
Defined.

(** * The duration of a scan

    With a clock: what the thread that [winrt_start_scan] detaches does to
    the scan it was started for, and to a later one. *)

Lemma wake_run (due : list Z) (s : World) :
  ∃ s',
    wake due s = Some (tt, s')
    ∧ heap s' = heap s
    ∧ g_discovered_devices (globals s') = g_discovered_devices (globals s)
    ∧ match due with
      | [] => s' = s
      | _ :: _ => g_watcher (globals s') = None
      end.
Proof.
  revert s. induction due as [|w due IH]; intros s; simpl.
  - by exists s.
  - destruct (winrt_stop_scan_run s) as (s1 & Hstop & Hw & Hh & Hd & _).
    rewrite (bind_run _ _ s tt s1 Hstop).
    destruct (IH s1) as (s2 & Hrun & Hh2 & Hd2 & Hcase).
    exists s2. split; [done|]. split; [congruence|]. split; [congruence|].
    destruct due; [by subst|done].
Qed.

(** A call of [winrt_start_scan] detaches one thread when it returns 0, and
    none otherwise. *)
Lemma winrt_start_scan_detached (pf : Platform) (durationMs nioxOnly : Z)
    (callback : DeviceFoundCallback) (userData : voidptr) (s : World) (t : Z) :
  ∃ r s' new,
    winrt_start_scan pf durationMs nioxOnly callback userData s = Some (r, s')
    ∧ effects s' = effects s ++ new
    ∧ detached t new = if r =? 0 then [t + Z.max 0 durationMs] else [].
Proof.
  destruct pf as [throws fault ad].
  unfold winrt_start_scan, winrt_initialize, scan_reset, scan_launch, scan_catch,
    throws_at, make_watcher, update_globals, get_globals, emit, bind, ret.
  cbn [init_apartment_throws scan_throws].
  destruct (g_initialized (globals s)) eqn:Hi; [|destruct throws];
    (destruct (g_watcher (globals s)) eqn:Hw; [|destruct fault as [[]|]]).
  all: repeat (progress (cbn -[Pos.succ Z.max Z.add]; rewrite ?Hi, ?Hw)).
  all: eexists _, _, _; (split; [reflexivity|]);
    cbn -[Pos.succ Z.max Z.add]; rewrite ?Hi, ?Hw.
  all: rewrite <- ?app_assoc.
  all: (split; [first [reflexivity | symmetry; apply app_nil_r]|]).
  all: reflexivity.
Qed.

Lemma timed_start_scan (pf : Platform) (durationMs nioxOnly : Z)
    (callback : DeviceFoundCallback) (userData : voidptr) (t : Timed) :
  ∃ r s',
    winrt_start_scan pf durationMs nioxOnly callback userData (world t) = Some (r, s')
    ∧ timed_step (At (StartScanCall pf durationMs nioxOnly callback userData)) t
      = Some {| world := s'; now := now t;
                sleeping := sleeping t
                            ++ if r =? 0 then [now t + Z.max 0 durationMs] else [] |}.
Proof.
  destruct (winrt_start_scan_detached pf durationMs nioxOnly callback userData
              (world t) (now t)) as (r & s' & new & Hrun & Heff & Hnew).
  exists r, s'. split; [done|].
  unfold timed_step, step.
  rewrite (bind_run _ _ (world t) r s' Hrun). unfold ret.
  by rewrite Heff, drop_app_length, Hnew.
Qed.

Lemma filter_none {A} (f : A → bool) (l : list A) :
  (∀ x, x ∈ l → f x = false) → List.filter f l = [].
Proof.
  induction l as [|x l IH]; intros Hall; simpl; [done|].
  rewrite (Hall x) by left. apply IH. intros y Hy. apply Hall. by right.
Qed.

(** Time passing: the clock advances, the threads that are due are gone, and
    if one was due no watcher is left, whichever scan started the thread. *)
Lemma elapse_run (dt : Z) (t : Timed) :
  ∃ t',
    timed_step (Elapse dt) t = Some t'
    ∧ now t' = now t + Z.max 0 dt
    ∧ sleeping t' = List.filter (λ w, now t' <? w) (sleeping t)
    ∧ heap (world t') = heap (world t)
    ∧ g_discovered_devices (globals (world t'))
      = g_discovered_devices (globals (world t))
    ∧ ((∀ w, w ∈ sleeping t → now t' < w) → world t' = world t)
    ∧ ((∃ w, w ∈ sleeping t ∧ w ≤ now t') → g_watcher (globals (world t')) = None).
Proof.
  unfold timed_step.
  destruct (wake_run (List.filter (λ w, w <=? now t + Z.max 0 dt) (sleeping t)) (world t))
    as (s' & Hrun & Hh & Hd & Hcase).
  rewrite Hrun. eexists. split; [reflexivity|]. simpl.
  split; [done|]. split; [done|]. split; [done|]. split; [done|]. split.
  - intros Hnone. rewrite filter_none in Hcase; [done|].
    intros w Hw. apply Z.leb_gt. by apply Hnone.
  - intros (w & Hw & Hdue).
    destruct (List.filter _ (sleeping t)) as [|w' due] eqn:Hf; [|done].
    assert (Hin : In w (List.filter (λ w, w <=? now t + Z.max 0 dt) (sleeping t))).
    { apply filter_In. split; [by apply list_elem_of_In|]. by apply Z.leb_le. }
    rewrite Hf in Hin. destruct Hin.
Qed.

(** A scan started while no thread is asleep does last [durationMs]
    milliseconds if nothing else stops it: until then its watcher is the
    current one, and from then on there is none. *)
Lemma lone_scan_stops_on_time (pf : Platform) (durationMs nioxOnly : Z)
    (callback : DeviceFoundCallback) (userData : voidptr) (t : Timed) (s : World)
    (dt : Z) :
  sleeping t = [] →
  winrt_start_scan pf durationMs nioxOnly callback userData (world t) = Some (0, s) →
  ∃ started later,
    timed_step (At (StartScanCall pf durationMs nioxOnly callback userData)) t
    = Some started
    ∧ world started = s
    ∧ g_watcher (globals s) = Some (next_watcher (world t))
    ∧ sleeping started = [now t + Z.max 0 durationMs]
    ∧ timed_step (Elapse dt) started = Some later
    ∧ now later = now t + Z.max 0 dt
    ∧ (Z.max 0 dt < Z.max 0 durationMs → world later = s)
    ∧ (Z.max 0 durationMs ≤ Z.max 0 dt →
       g_watcher (globals (world later)) = None ∧ sleeping later = []).
Proof.
  intros Hnone Hrun.
  destruct (timed_start_scan pf durationMs nioxOnly callback userData t)
    as (r & s' & Hrun' & Hstep).
  rewrite Hrun in Hrun'. simplify_eq. rewrite Hnone in Hstep. simpl in Hstep.
  eexists. destruct (elapse_run dt
    {| world := s'; now := now t; sleeping := [now t + Z.max 0 durationMs] |})
    as (later & Hel & Hnow & Hsl & _ & _ & Hkeep & Hstop).
  simpl in *. exists later. split; [exact Hstep|]. simpl.
  split; [done|]. split.
  { destruct (winrt_start_scan_run pf durationMs nioxOnly callback userData (world t))
      as (r & s2 & Hrun2 & _ & _ & _ & [(Hr & _)|[(Hr & _)|(_ & _ & Hw & _)]]);
      rewrite Hrun in Hrun2; simplify_eq; done. }
  split; [done|]. split; [done|]. split; [done|]. split.
  - intros Hlt. apply Hkeep. intros w ->%list_elem_of_singleton. lia.
  - intros Hle. split.
    + apply Hstop. exists (now t + Z.max 0 durationMs). split; [left|lia].
    + rewrite Hsl. simpl. rewrite Hnow.
      destruct (Z.ltb_spec (now t + Z.max 0 dt) (now t + Z.max 0 durationMs)); [lia|done].
Qed.

Lemma timed_stop_scan (t : Timed) :
  ∃ s',
    winrt_stop_scan (world t) = Some (tt, s')
    ∧ timed_step (At StopScanCall) t
      = Some {| world := s'; now := now t; sleeping := sleeping t |}
    ∧ g_watcher (globals s') = None
    ∧ g_initialized (globals s') = g_initialized (globals (world t))
    ∧ next_watcher s' = next_watcher (world t).
Proof.
  destruct (winrt_stop_scan_run (world t)) as (s' & Hrun & Hw & _ & _ & Heff).
  exists s'. split; [done|]. split.
  - unfold timed_step, step. rewrite Hrun, Heff, drop_app_length.
    destruct (g_watcher (globals (world t))); simpl; by rewrite app_nil_r.
  - split; [done|]. revert Hrun. unfold winrt_stop_scan.
    rewrite (bind_run _ _ (world t) (globals (world t)) (world t)) by reflexivity.
    destruct (g_watcher (globals (world t))); by intros [= <-].
Qed.

(** C2: the thread of a scan is not cancelled when the scan is stopped, and
    it stops the scan that is current when it wakes up. A scan of [d1]
    milliseconds is started while no thread is asleep and the client stops it
    after [dt1] milliseconds, before its time is over; a second scan, of [d2]
    milliseconds, is then started and succeeds. When the first scan's thread
    wakes up, [d1] milliseconds after the first start, the second scan has
    run for [dt2] milliseconds, less than [d2]: until then it was running,
    and now its watcher is stopped and released, while its own thread is
    still asleep. *)
Theorem stale_timer_stops_later_scan (pf1 pf2 : Platform) (d1 n1 d2 n2 : Z)
    (cb1 cb2 : DeviceFoundCallback) (ud1 ud2 : voidptr) (t : Timed) (s1 : World)
    (dt1 dt2 : Z) :
  sleeping t = [] →
  winrt_start_scan pf1 d1 n1 cb1 ud1 (world t) = Some (0, s1) →
  scan_throws pf2 = None →
  0 ≤ dt1 < d1 →
  0 ≤ dt2 < d2 →
  dt1 + dt2 = d1 →
  ∃ stopped s2 cut,
    timed_run [At (StartScanCall pf1 d1 n1 cb1 ud1); Elapse dt1; At StopScanCall]
              t = Some stopped
    ∧ winrt_start_scan pf2 d2 n2 cb2 ud2 (world stopped) = Some (0, s2)
    ∧ timed_step (At (StartScanCall pf2 d2 n2 cb2 ud2)) stopped
      = Some {| world := s2; now := now t + dt1;
                sleeping := [now t + d1; now t + dt1 + d2] |}
    ∧ g_watcher (globals s2) = Some (next_watcher s1)
    ∧ (∀ dt, 0 ≤ dt < dt2 →
       timed_step (Elapse dt)
         {| world := s2; now := now t + dt1;
            sleeping := [now t + d1; now t + dt1 + d2] |}
       = Some {| world := s2; now := now t + dt1 + dt;
                 sleeping := [now t + d1; now t + dt1 + d2] |})
    ∧ timed_step (Elapse dt2)
        {| world := s2; now := now t + dt1;
           sleeping := [now t + d1; now t + dt1 + d2] |} = Some cut
    ∧ now cut = now t + dt1 + dt2
    ∧ now cut < now t + dt1 + d2
    ∧ g_watcher (globals (world cut)) = None
    ∧ effects (world cut)
      = effects s2 ++ [WatcherStop (next_watcher s1); WatcherRelease (next_watcher s1)]
    ∧ sleeping cut = [now t + dt1 + d2].
Proof.
  intros Hnone Hrun1 Hpf2 Hdt1 Hdt2 Hsum.
  (* the first scan *)
  pose (started := {| world := s1; now := now t; sleeping := [now t + d1] |}).
  assert (Hstep1 : timed_step (At (StartScanCall pf1 d1 n1 cb1 ud1)) t = Some started).
  { destruct (timed_start_scan pf1 d1 n1 cb1 ud1 t) as (r & s' & Hrun' & Hstep).
    rewrite Hrun1 in Hrun'. injection Hrun' as <- <-.
    rewrite Hstep, Hnone, (Z.max_r 0 d1) by lia. reflexivity. }
  assert (Hs1 : g_watcher (globals s1) = Some (next_watcher (world t))
                ∧ g_initialized (globals s1) = true
                ∧ next_watcher s1 = Pos.succ (next_watcher (world t))).
  { destruct (winrt_start_scan_run pf1 d1 n1 cb1 ud1 (world t))
      as (r & s2 & Hrun2 & _ & _ & _ & [(Hr & _)|[(Hr & _)|(_ & _ & Hw & Hi & Hn & _)]]);
      rewrite Hrun1 in Hrun2; injection Hrun2 as <- <-; done. }
  destruct Hs1 as (Hw1 & Hi1 & Hn1).
  (* [dt1] milliseconds later the client stops it *)
  destruct (elapse_run dt1 started) as (t2 & Hel1 & Hnow2 & Hsl2 & _ & _ & Hkeep2 & _).
  assert (Hnow2' : now t2 = now t + dt1).
  { rewrite Hnow2. cbn [now started]. lia. }
  assert (Hw2 : world t2 = s1).
  { apply Hkeep2. intros w ->%list_elem_of_singleton. rewrite Hnow2'. lia. }
  assert (Hsl2' : sleeping t2 = [now t + d1]).
  { rewrite Hsl2, Hnow2'. cbn [sleeping started List.filter].
    by destruct (Z.ltb_spec (now t + dt1) (now t + d1)); [|lia]. }
  destruct (timed_stop_scan t2) as (s3 & Hstop & Hstep3 & Hw3 & Hi3 & Hn3).
  rewrite Hsl2', Hnow2' in Hstep3. rewrite Hw2 in Hi3, Hn3, Hstop.
  pose (stopped := {| world := s3; now := now t + dt1; sleeping := [now t + d1] |}).
  (* the second scan *)
  destruct (timed_start_scan pf2 d2 n2 cb2 ud2 stopped) as (r & s4 & Hrun4 & Hstep4).
  cbn [world stopped] in Hrun4.
  assert (Hr : r = 0).
  { destruct (winrt_start_scan_effects pf2 d2 n2 cb2 ud2 s3)
      as (r' & s'' & new & Hrun'' & _ & _ & Hiff & _).
    rewrite Hrun4 in Hrun''. injection Hrun'' as <- <-.
    apply Hiff. split; [done|]. split; [|done].
    unfold can_initialize. by rewrite Hi3, Hi1. }
  subst r.
  assert (Hw4 : g_watcher (globals s4) = Some (next_watcher s1)).
  { destruct (winrt_start_scan_run pf2 d2 n2 cb2 ud2 s3)
      as (r & s5 & Hrun5 & _ & _ & _ & [(Hr & _)|[(Hr & _)|(_ & _ & Hw & _)]]);
      rewrite Hrun4 in Hrun5; injection Hrun5 as <- <-; [done|done|].
    by rewrite Hw, Hn3. }
  pose (second := {| world := s4; now := now t + dt1;
                     sleeping := [now t + d1; now t + dt1 + d2] |}).
  assert (Hstep4' : timed_step (At (StartScanCall pf2 d2 n2 cb2 ud2)) stopped
                    = Some second).
  { rewrite Hstep4, (Z.max_r 0 d2) by lia. reflexivity. }
  (* the first scan's thread wakes up *)
  destruct (winrt_stop_scan_run s4) as (s5 & Hstop5 & Hw5 & _ & _ & Heff5).
  pose (cut := {| world := s5; now := now t + dt1 + dt2;
                  sleeping := [now t + dt1 + d2] |}).
  assert (Hcut : timed_step (Elapse dt2) second = Some cut).
  { unfold timed_step, second. cbn [now sleeping world List.filter].
    rewrite (Z.max_r 0 dt2) by lia.
    destruct (Z.leb_spec (now t + d1) (now t + dt1 + dt2)); [|lia].
    destruct (Z.leb_spec (now t + dt1 + d2) (now t + dt1 + dt2)); [lia|].
    destruct (Z.ltb_spec (now t + dt1 + dt2) (now t + d1)); [lia|].
    destruct (Z.ltb_spec (now t + dt1 + dt2) (now t + dt1 + d2)); [|lia].
    cbn [wake]. by rewrite (bind_run _ _ s4 tt s5 Hstop5). }
  exists stopped, s4, cut.
  split.
  { cbn [timed_run]. by rewrite Hstep1, Hel1, Hstep3. }
  split; [done|]. split; [done|]. split; [done|].
  split.
  { intros dt Hdt. unfold timed_step. cbn [now sleeping world List.filter].
    rewrite (Z.max_r 0 dt) by lia.
    destruct (Z.leb_spec (now t + d1) (now t + dt1 + dt)); [lia|].
    destruct (Z.leb_spec (now t + dt1 + d2) (now t + dt1 + dt)); [lia|].
    destruct (Z.ltb_spec (now t + dt1 + dt) (now t + d1)); [|lia].
    by destruct (Z.ltb_spec (now t + dt1 + dt) (now t + dt1 + d2)); [|lia]. }
  split; [done|]. cbn [now world sleeping cut].
  split; [done|]. split; [lia|]. split; [done|]. split; [|done].
  by rewrite Heff5, Hw4.
Qed.

(** ** The sample session with a clock *)

Lemma stale_timer_stops_later_scan_witness :
  sleeping initial_timed = []
  ∧ winrt_start_scan sample_platform 200 0 (Some 7%positive) (Some 99)
      (world initial_timed) = Some (0, world short_scan_started)
  ∧ scan_throws sample_platform = None
  ∧ 0 ≤ 10 < 200
  ∧ 0 ≤ 190 < 5000
  ∧ 10 + 190 = 200
  ∧ ∃ stopped s2 cut,
      timed_run [At short_scan; Elapse 10; At StopScanCall] initial_timed = Some stopped
      ∧ winrt_start_scan sample_platform 5000 0 (Some 7%positive) (Some 99)
          (world stopped) = Some (0, s2)
      ∧ timed_step (At long_scan) stopped
        = Some {| world := s2; now := now initial_timed + 10;
                  sleeping := [now initial_timed + 200; now initial_timed + 10 + 5000] |}
      ∧ g_watcher (globals s2) = Some (next_watcher (world short_scan_started))
      ∧ (∀ dt, 0 ≤ dt < 190 →
         timed_step (Elapse dt)
           {| world := s2; now := now initial_timed + 10;
              sleeping := [now initial_timed + 200; now initial_timed + 10 + 5000] |}
         = Some {| world := s2; now := now initial_timed + 10 + dt;
                   sleeping := [now initial_timed + 200;
                                now initial_timed + 10 + 5000] |})
      ∧ timed_step (Elapse 190)
          {| world := s2; now := now initial_timed + 10;
             sleeping := [now initial_timed + 200; now initial_timed + 10 + 5000] |}
        = Some cut
      ∧ now cut = now initial_timed + 10 + 190
      ∧ now cut < now initial_timed + 10 + 5000
      ∧ g_watcher (globals (world cut)) = None
      ∧ effects (world cut)
        = effects s2 ++ [WatcherStop (next_watcher (world short_scan_started));
                         WatcherRelease (next_watcher (world short_scan_started))]
      ∧ sleeping cut = [now initial_timed + 10 + 5000].
Proof.
  assert (H1 : sleeping initial_timed = []) by reflexivity.
  assert (H2 : winrt_start_scan sample_platform 200 0 (Some 7%positive) (Some 99)
                 (world initial_timed) = Some (0, world short_scan_started))
    by (vm_compute; reflexivity).
  assert (H3 : scan_throws sample_platform = None) by reflexivity.
  assert (H4 : 0 ≤ 10 < 200) by lia.
  assert (H5 : 0 ≤ 190 < 5000) by lia.
  assert (H6 : 10 + 190 = 200) by reflexivity.
  split; [exact H1|]. split; [exact H2|]. split; [exact H3|].
  split; [exact H4|]. split; [exact H5|]. split; [exact H6|].
  exact (stale_timer_stops_later_scan sample_platform sample_platform 200 0 5000 0
           (Some 7%positive) (Some 7%positive) (Some 99) (Some 99)
           initial_timed (world short_scan_started) 10 190 H1 H2 H3 H4 H5 H6).
Defined.

(** The same session, step by step: the second scan, of 5000 ms, is started
    at 10 ms and runs at 199 ms; at 200 ms the first scan's thread wakes up
    and the second scan is over, 190 ms after its start; its own thread
    sleeps on and wakes up at 5010 ms. *)
Example long_scan_cut_short :
  timed_run [At short_scan; Elapse 10; At StopScanCall; At long_scan; Elapse 189]
            initial_timed = Some long_scan_running
  ∧ now long_scan_running = 199
  ∧ g_watcher (globals (world long_scan_running)) = Some 2%positive
  ∧ sleeping long_scan_running = [200; 5010]
  ∧ timed_step (Elapse 1) long_scan_running = Some long_scan_cut
  ∧ now long_scan_cut = 200
  ∧ g_watcher (globals (world long_scan_cut)) = None
  ∧ sleeping long_scan_cut = [5010]
  ∧ effects (world long_scan_cut)
    = [InitApartment;
       WatcherCreate 1%positive; WatcherScanningMode 1%positive Active;
       WatcherReceived 1%positive; WatcherStart 1%positive; ThreadDetach 200;
       WatcherStop 1%positive; WatcherRelease 1%positive;
       WatcherCreate 2%positive; WatcherScanningMode 2%positive Active;
       WatcherReceived 2%positive; WatcherStart 2%positive; ThreadDetach 5000;
       WatcherStop 2%positive; WatcherRelease 2%positive]
  ∧ ∀ args, timed_step (At (ReceivedEvent args)) long_scan_cut = Some long_scan_cut.
Proof.
  do 9 (split; [vm_compute; reflexivity|]).
  intros args.
  assert (Hw : g_watcher (globals (world long_scan_cut)) = None)
    by (vm_compute; reflexivity).
  unfold timed_step, step. rewrite (deliver_without_watcher args _ Hw).
  vm_compute. reflexivity.
Qed.
